(** * express-zod-safe: the [validate] middleware factory

    A shallow embedding of [src/index.ts] (the compiled module under
    [src/unnamed/part_000], lines 50-94 for the ES module build) and proofs
    of the properties its specification states.

    The module is twenty lines of JavaScript around two collaborators,
    express (the request object) and zod (the validators).  The embedding
    keeps the code's shape:

    - JavaScript data that travels through the request ([req.params],
      [req.query], [req.body], the [data] of a successful parse) is a
      [value]; an object field may hold [undefined], which is different
      from the field being absent;
    - what stands in a schema slot is a [jsv]: [undefined], [null], a
      function, or an object whose properties are again [jsv]s, so that
      [isZodType] is the structural test the source performs;
    - a request is the finite map of its own properties; the [query]
      property of its prototype [express.request] is a property descriptor,
      read once at module load and replaced by the patched accessor;
    - validators are effectful: they act on an abstract world [W], and may
      throw instead of returning; the handler is written in a small
      state-and-exception monad whose state carries the request, the world
      and the trace of the calls and assignments the handler makes. *)

From Stdlib Require Import ZArith.
From stdpp Require Import base strings list gmap.

#[local] Set Warnings "-register-all".
Open Scope string_scope.
Open Scope list_scope.

(** ** JavaScript data *)

(** Values stored on a request and exchanged with validators. *)
Inductive value : Type :=
| VUndefined
| VNull
| VBool (b : bool)
| VNum (n : Z)
| VStr (s : string)
| VObj (fields : list (string * value)).

(** The literal [{}]. *)
Definition empty_object : value := VObj [].

(** [lhs ?? rhs] on data values. *)
Definition nullish (lhs rhs : value) : value :=
  match lhs with
  | VUndefined | VNull => rhs
  | _ => lhs
  end.

(** Field lookup in an object literal (first binding wins). *)
Fixpoint assoc {A : Type} (k : string) (l : list (string * A)) : option A :=
  match l with
  | [] => None
  | (k', a) :: l' => if String.eqb k k' then Some a else assoc k l'
  end.

(** ** Issues, parse results, completions *)

(** One zod issue: kind, field path and message. *)
Record issue : Type := Issue {
  code : string;
  path : list string;
  message : string
}.

(** What [safeParseAsync] resolves to: [{success: true, data}] or
    [{success: false, error: {issues}}]. *)
Inductive parsed : Type :=
| Success (data : value)
| Failure (issues : list issue).

(** Values thrown by code the handler calls. *)
Inductive exn : Type :=
| TypeError (msg : string)
| Thrown (v : value).

(** A call either returns or throws. *)
Inductive completion (A : Type) : Type :=
| Returns (a : A)
| Throws (e : exn).
Arguments Returns {A} a.
Arguments Throws {A} e.

(** Evaluation in sequence: a throw ends it. *)
#[export] Instance completion_ret : MRet completion := fun A a => Returns a.

#[export] Instance completion_bind : MBind completion := fun A B f c =>
  match c with
  | Returns a => f a
  | Throws e => Throws e
  end.

(** ** The request object and the [query] descriptor *)

(** Own properties of one request object. *)
Abbreviation request := (gmap string value).

(** A property descriptor, as [Object.getOwnPropertyDescriptor] returns it:
    a data descriptor [{value, ...}] (taken writable) or an accessor
    descriptor [{get, set, ...}] either of whose functions may be missing.
    The functions receive the request as [this]. *)
Inductive PropertyDescriptor : Type :=
| DataDescriptor (v : value)
| AccessorDescriptor (get : option (request -> value))
                     (set : option (value -> request -> request)).

(** [Object.hasOwn(this, key)]. *)
Definition hasOwn (this : request) (key : string) : bool :=
  bool_decide (is_Some (this !! key)).

(** [descriptor?.get?.call(this)], for a descriptor that is present: a data
    descriptor has no [get]. *)
Definition original_get (descriptor : PropertyDescriptor) (this : request)
  : value :=
  match descriptor with
  | AccessorDescriptor (Some g) _ => g this
  | _ => VUndefined
  end.

(** The [get()] of the patch (lines 59-62). *)
Definition patched_get (descriptor : PropertyDescriptor) (this : request)
  : value :=
  if hasOwn this "_query"
  then default VUndefined (this !! "_query")
  else original_get descriptor this.

(** The [set(query)] of the patch (lines 63-65): [this._query = query]. *)
Definition patched_set (query : value) (this : request) : request :=
  <["_query" := query]> this.

(** Module load (lines 56-69): the [query] property of [express.request]
    after [if (descriptor) Object.defineProperty(...)], given what
    [Object.getOwnPropertyDescriptor(express.request, "query")] returned. *)
Definition install (descriptor : option PropertyDescriptor)
  : option PropertyDescriptor :=
  match descriptor with
  | Some d => Some (AccessorDescriptor (Some (patched_get d)) (Some patched_set))
  | None => None
  end.

(** [this[key]] for a request whose prototype carries [proto_query] as its
    [query] property and nothing else of interest: an own property wins,
    then the prototype's property is read, an accessor being called with
    the request as [this]. *)
Definition prop_get (proto_query : option PropertyDescriptor)
    (this : request) (key : string) : value :=
  match this !! key with
  | Some v => v
  | None =>
      if String.eqb key "query" then
        match proto_query with
        | Some (DataDescriptor v) => v
        | Some (AccessorDescriptor (Some g) _) => g this
        | Some (AccessorDescriptor None _) => VUndefined
        | None => VUndefined
        end
      else VUndefined
  end.

(** [this[key] = v] in strict code: an own property is updated, an
    inherited accessor's setter is called with the request as [this] (an
    accessor without setter makes the assignment throw), and otherwise an
    own property is created. *)
Definition prop_set (proto_query : option PropertyDescriptor)
    (this : request) (key : string) (v : value) : completion request :=
  match this !! key with
  | Some _ => Returns (<[key := v]> this)
  | None =>
      if String.eqb key "query" then
        match proto_query with
        | Some (AccessorDescriptor _ (Some s)) => Returns (s v this)
        | Some (AccessorDescriptor _ None) =>
            Throws (TypeError "Cannot set property query which has only a getter")
        | Some (DataDescriptor _) => Returns (<[key := v]> this)
        | None => Returns (<[key := v]> this)
        end
      else Returns (<[key := v]> this)
  end.

(** ** The three categories *)

(** [DataType = (typeof types)[number]]. *)
Inductive DataType : Type := Query | Params | Body.

#[global] Instance DataType_eq_dec : EqDecision DataType.
Proof. solve_decision. Defined.

(** The property name a category stands for. *)
Definition key (t : DataType) : string :=
  match t with
  | Query => "query"
  | Params => "params"
  | Body => "body"
  end.

(** [var types = ["query", "params", "body"]] (line 52). *)
Definition types : list DataType := [Query; Params; Body].

(** ** Events and results of the handler *)

(** What the handler does that can be seen from outside it. *)
Inductive event : Type :=
| Called (t : DataType) (input : value)
| Settled (t : DataType) (r : completion parsed)
| Assigned (t : DataType) (v : value)
| NextCalled (args : list value).

(** Why the promise of the handler is rejected: the [ZodError] the handler
    throws itself (line 87), or a value thrown by code it called. *)
Inductive rejection : Type :=
| ZodError (issues : list issue)
| Uncaught (e : exn).

(** How a computation ends. *)
Inductive result (A : Type) : Type :=
| Done (a : A)
| Rejected (r : rejection).
Arguments Done {A} a.
Arguments Rejected {A} r.

(** ** Validators, schemas and the handler *)

Section Validate.

(** The state validators act on: whatever a [safeParseAsync] may read or
    change besides its argument. *)
Context {W : Type}.

(** A [safeParseAsync]: the input and the world in, the settled promise and
    the world out. *)
Definition parser : Type := value -> W -> completion parsed * W.

(** The [next] of express, called with an argument list. *)
Definition callback : Type := list value -> W -> completion value * W.

(** What can stand in a schema slot. *)
Inductive jsv : Type :=
| JUndefined
| JNull
| JFunction (f : parser)
| JObject (props : list (string * jsv)).

(** [!!schema]. *)
Definition truthy (schema : jsv) : bool :=
  match schema with
  | JUndefined | JNull => false
  | _ => true
  end.

(** [schema.name] on a value that is not nullish. *)
Definition member (schema : jsv) (name : string) : jsv :=
  match schema with
  | JObject props => default JUndefined (assoc name props)
  | _ => JUndefined
  end.

(** [typeof]. *)
Definition typeof (v : jsv) : string :=
  match v with
  | JUndefined => "undefined"
  | JFunction _ => "function"
  | JNull | JObject _ => "object"
  end.

(** [isZodType] (lines 53-55). *)
Definition isZodType (schema : jsv) : bool :=
  truthy schema && String.eqb (typeof (member schema "safeParseAsync")) "function".

(** [lhs ?? rhs] on schema values. *)
Definition nullish_schema (lhs rhs : jsv) : jsv :=
  match lhs with
  | JUndefined | JNull => rhs
  | _ => lhs
  end.

(** The call [o.safeParseAsync(input)]: calling what is not a function
    throws a [TypeError]. *)
Definition safeParseAsync (o : jsv) : parser :=
  match member o "safeParseAsync" with
  | JFunction f => f
  | _ => fun _ w => (Throws (TypeError "safeParseAsync is not a function"), w)
  end.

(** *** zod's strict objects

    zod is a dependency of the module and its code is not part of the
    sources; the strict objects that [validate] builds are modelled after
    what the specification says of them. *)

(** Modelled from the spec: an issue has a field path; an issue found by
    the validator of field [k] is reported with [k] in front of its path. *)
Definition under (k : string) (i : issue) : issue :=
  Issue (code i) (k :: path i) (message i).

(** Modelled from the spec: the fields of the input "not named in the
    mapping". *)
Definition unrecognized (shape : list (string * jsv))
    (input : list (string * value)) : list string :=
  List.filter (fun k => negb (bool_decide (is_Some (assoc k shape))))
              (List.map fst input).

(** Modelled from the spec: the issue that names the unrecognized fields
    ("fails with that field named in the issue list"). *)
Definition unrecognized_keys (keys : list string) : issue :=
  Issue "unrecognized_keys" []
        (String.append "Unrecognized keys: " (String.concat ", " keys)).

(** Modelled from the spec: the issue for an input that is not an object
    at all. *)
Definition invalid_type : issue :=
  Issue "invalid_type" [] "Invalid input: expected object".

(** Modelled from the spec: a strict object "validates each named field
    with its corresponding validator".  The fields are taken in the order
    of the mapping, each validator is given the field's value in the input
    ([undefined] when the input lacks the field), and the outputs and the
    issues are collected; a validator that throws ends the whole parse. *)
Fixpoint parse_fields (shape : list (string * jsv))
    (input : list (string * value)) (w : W)
  : completion (list (string * value) * list issue) * W :=
  match shape with
  | [] => (Returns ([], []), w)
  | (k, v) :: shape' =>
      match safeParseAsync v (default VUndefined (assoc k input)) w with
      | (Throws e, w') => (Throws e, w')
      | (Returns p, w') =>
          match parse_fields shape' input w' with
          | (Throws e, w'') => (Throws e, w'')
          | (Returns (data, rest), w'') =>
              match p with
              | Success d => (Returns ((k, d) :: data, rest), w'')
              | Failure found =>
                  (Returns (data, List.map (under k) found ++ rest), w'')
              end
          end
      end
  end.

(** Modelled from the spec: the attempt-parse of a strict object over
    [shape].  It "fails if the input contains any field not named in the
    mapping, and otherwise validates each named field"; as scenario 2 of
    the testable properties has it, the issues of the named fields and the
    issue for the extra fields are reported together. *)
Definition strict_parse (shape : list (string * jsv)) : parser :=
  fun input w =>
    match input with
    | VObj fields =>
        match parse_fields shape fields w with
        | (Throws e, w') => (Throws e, w')
        | (Returns (data, found), w') =>
            let extra := unrecognized shape fields in
            let all :=
              found ++ (if extra is [] then [] else [unrecognized_keys extra]) in
            (Returns (if all is [] then Success (VObj data) else Failure all), w')
        end
    | _ => (Returns (Failure [invalid_type]), w)
    end.

(** The specification describes strict objects over field mappings only:
    what the attempt-parse of a strict object does when it was built from a
    shape that is not a mapping is not stated, and is left open here. *)
Class MalformedShape : Type := malformed_shape : jsv -> parser.

Context {zod : MalformedShape}.

(** Modelled from the spec: [z.strictObject], which belongs to zod.  The
    specification asks of it to "synthesize a strict-object validator" from
    "a set of named-field validators": an object whose [safeParseAsync] is
    the strict parse over the mapping.  For a shape that is not a mapping
    the object is built all the same ("normalization cannot fail") and its
    [safeParseAsync] is the one left open. *)
Definition strictObject (shape : jsv) : jsv :=
  JObject [("safeParseAsync",
            JFunction (match shape with
                       | JObject props => strict_parse props
                       | _ => malformed_shape shape
                       end))].

(** *** Schemas *)

(** [CompleteValidationSchema]: three optional entries; an absent entry
    reads as [undefined]. *)
Record CompleteValidationSchema : Type := Schemas {
  params : jsv;
  query : jsv;
  body : jsv
}.

(** [validation[type]] and [schemas[type]]. *)
Definition entry (o : CompleteValidationSchema) (t : DataType) : jsv :=
  match t with
  | Query => query o
  | Params => params o
  | Body => body o
  end.

(** The [const validation = {...}] of [validate] (lines 71-75). *)
Definition validation (schemas : CompleteValidationSchema)
  : CompleteValidationSchema :=
  {| params := if isZodType (params schemas) then params schemas
               else strictObject (nullish_schema (params schemas) (JObject []));
     query := if isZodType (query schemas) then query schemas
              else strictObject (nullish_schema (query schemas) (JObject []));
     body := if isZodType (body schemas) then body schemas
             else strictObject (nullish_schema (body schemas) (JObject [])) |}.

(** *** The normalization as JavaScript evaluates it *)

(** [x.name], evaluated: reading a property of [undefined] or [null]
    throws a [TypeError]. *)
Definition get_member (x : jsv) (name : string) : completion jsv :=
  match x with
  | JUndefined | JNull =>
      Throws (TypeError "Cannot read properties of undefined or null")
  | _ => Returns (member x name)
  end.

(** The call [isZodType(schema)], evaluated (line 54): the right operand
    of [&&] is evaluated only when [!!schema] is true. *)
Definition eval_isZodType (schema : jsv) : completion bool :=
  if truthy schema then
    m ← get_member schema "safeParseAsync";
    mret (String.eqb (typeof m) "function")
  else mret false.

(** One entry of the object literal (lines 72-74):
    [isZodType(s) ? s : z.strictObject(s ?? {})]. *)
Definition eval_entry (s : jsv) : completion jsv :=
  is_validator ← eval_isZodType s;
  mret (if is_validator : bool then s
        else strictObject (nullish_schema s (JObject []))).

(** The [const validation = {...}] of [validate], evaluated (lines 71-75):
    the entries in the order they are written. *)
Definition eval_validation (schemas : CompleteValidationSchema)
  : completion CompleteValidationSchema :=
  p ← eval_entry (params schemas);
  q ← eval_entry (query schemas);
  b ← eval_entry (body schemas);
  mret {| params := p; query := q; body := b |}.

(** *** The handler's monad *)

(** The request being handled, the validators' world, and the events so
    far, oldest first. *)
Record state : Type := State {
  req : request;
  world : W;
  trace : list event
}.

(** Computations of the handler. *)
Definition M (A : Type) : Type := state -> result A * state.

#[export] Instance M_ret : MRet M := fun A a s => (Done a, s).

#[export] Instance M_bind : MBind M := fun A B f m s =>
  match m s with
  | (Done a, s') => f a s'
  | (Rejected r, s') => (Rejected r, s')
  end.

(** [throw r]. *)
Definition throw {A : Type} (r : rejection) : M A :=
  fun s => (Rejected r, s).

(** The query descriptor found on [express.request] when the module is
    loaded (line 56). *)
Variable descriptor : option PropertyDescriptor.

(** [req[type]].  The getter behind [req.query] is taken as a function of
    the request: what the getter of express keeps for itself on the request
    it is called on (its parse of the URL) is not part of this model, which
    follows the own properties [query], [params], [body] and [_query]
    only. *)
Definition read (t : DataType) : M value :=
  fun s => (Done (prop_get (install descriptor) (req s) (key t)), s).

(** [req[type] = v]. *)
Definition assign (t : DataType) (v : value) : M unit :=
  fun s =>
    match prop_set (install descriptor) (req s) (key t) v with
    | Returns r => (Done (), State r (world s) (trace s ++ [Assigned t v]))
    | Throws e => (Rejected (Uncaught e), s)
    end.

(** [await validator.safeParseAsync(input)]: the call is made, the handler
    is suspended until the promise settles, and a rejection or a throw is
    rethrown at the [await]. *)
Definition await_safeParseAsync (t : DataType) (validator : jsv)
    (input : value) : M parsed :=
  fun s =>
    let '(r, w) := safeParseAsync validator input (world s) in
    let s' := State (req s) w (trace s ++ [Called t input; Settled t r]) in
    match r with
    | Returns p => (Done p, s')
    | Throws e => (Rejected (Uncaught e), s')
    end.

(** [next(...args)]. *)
Definition call (next : callback) (args : list value) : M value :=
  fun s =>
    let '(r, w) := next args (world s) in
    let s' := State (req s) w (trace s ++ [NextCalled args]) in
    match r with
    | Returns v => (Done v, s')
    | Throws e => (Rejected (Uncaught e), s')
    end.

(** [for (const x of l) body], the body updating a local accumulator. *)
Fixpoint for_of {A S : Type} (l : list A) (body : A -> S -> M S) (acc : S)
  : M S :=
  match l with
  | [] => mret acc
  | x :: l' => acc' ← body x acc; for_of l' body acc'
  end.

(** *** [validate] (lines 70-91) *)

(** The body of the loop (lines 80-84); [issues] is the local array. *)
Definition validate_type (validation : CompleteValidationSchema)
    (type : DataType) (issues : list issue) : M (list issue) :=
  input ← read type;
  parsed ← await_safeParseAsync type (entry validation type)
                                (nullish input empty_object);
  match parsed with
  | Success data => _ ← assign type data; mret issues
  | Failure found => mret (issues ++ found)
  end.

(** The handler [validate(schemas)] returns, applied to [res] and [next];
    the request is the one in the state.  The local [errors] array of the
    source is never used. *)
Definition validate (schemas : CompleteValidationSchema)
    (res : value) (next : callback) : M value :=
  let validation := validation schemas in
  issues ← for_of types (validate_type validation) [];
  if (0 <? length issues)%nat
  then throw (ZodError issues)
  else call next [].

(** Running the handler on a request in a world. *)
Definition handle (schemas : CompleteValidationSchema) (res : value)
    (next : callback) (r : request) (w : W) : result value * state :=
  validate schemas res next (State r w []).

(** *** Auxiliary notions *)

(** The request after [req[k] = v] under the installed accessor, where the
    assignment cannot throw. *)
Definition stored (r : request) (k : string) (v : value) : request :=
  match prop_set (install descriptor) r k v with
  | Returns r' => r'
  | Throws _ => r
  end.

(** The request keeps [v] for category [t]: in an own property, or, for
    [query] read through the patched accessor, in the shadow slot. *)
Definition holds (r : request) (t : DataType) (v : value) : Prop :=
  r !! key t = Some v ∨
  (t = Query ∧ r !! "query" = None ∧ is_Some descriptor ∧
   r !! "_query" = Some v).

(** A validator whose answer depends on its input only. *)
Definition deterministic (f : parser) : Prop :=
  ∀ input w w', (f input w).1 = (f input w').1.

End Validate.

Arguments parser : clear implicits.
Arguments callback : clear implicits.
Arguments jsv : clear implicits.
Arguments CompleteValidationSchema : clear implicits.
Arguments state : clear implicits.
Arguments M : clear implicits.
Arguments MalformedShape : clear implicits.

(** ** Observations on a trace *)

(** The categories whose validator was called, in call order. *)
Definition attempted (tr : list event) : list DataType :=
  omap (fun e => match e with Called t _ => Some t | _ => None end) tr.

(** Some [safeParseAsync] threw (or its promise was rejected). *)
Definition threw (tr : list event) : bool :=
  existsb (fun e => match e with Settled _ (Throws _) => true | _ => false end) tr.

(** The issues of all failures returned, in the order they were returned. *)
Definition collected (tr : list event) : list issue :=
  flat_map (fun e => match e with
                     | Settled _ (Returns (Failure found)) => found
                     | _ => []
                     end) tr.

(** The argument lists [next] was called with. *)
Definition next_calls (tr : list event) : list (list value) :=
  omap (fun e => match e with NextCalled args => Some args | _ => None end) tr.

Definition is_settled (t : DataType) (e : event) : bool :=
  match e with Settled t' _ => bool_decide (t = t') | _ => false end.

Definition is_called (t : DataType) (e : event) : bool :=
  match e with Called t' _ => bool_decide (t = t') | _ => false end.

(** The attempt-parse of [a] settles at some point of the trace and that of
    [b] is called later. *)
Fixpoint completes_before (a b : DataType) (tr : list event) : bool :=
  match tr with
  | [] => false
  | e :: tr' =>
      (is_settled a e && existsb (is_called b) tr') || completes_before a b tr'
  end.

(** The attempts are made one at a time: every call of a validator is
    followed at once by its settling, before anything else happens, and
    nothing at all happens after a validator has thrown. *)
Fixpoint sequential (tr : list event) : bool :=
  match tr with
  | [] => true
  | Called t _ :: tr1 =>
      match tr1 with
      | Settled t' r :: tr2 =>
          bool_decide (t = t') &&
          match r with
          | Returns _ => sequential tr2
          | Throws _ => if tr2 is [] then true else false
          end
      | _ => false
      end
  | Settled _ _ :: _ => false
  | _ :: tr1 => sequential tr1
  end.

(** The categories that come after [t] in [l]. *)
Fixpoint after (t : DataType) (l : list DataType) : list DataType :=
  match l with
  | [] => []
  | x :: l' => if decide (x = t) then l' else after t l'
  end.

(** The issues of the failures returned for category [t]. *)
Definition per_category (t : DataType) (tr : list event) : list issue :=
  flat_map (fun e => match e with
                     | Settled t' (Returns (Failure found)) =>
                         if decide (t = t') then found else []
                     | _ => []
                     end) tr.

(** How the promise of the handler settles when it ends with [return c()]
    and the call completes with [c]. *)
Definition settle (c : completion value) : result value :=
  match c with
  | Returns v => Done v
  | Throws e => Rejected (Uncaught e)
  end.

(** ** The optional-chain helper of the CommonJS build *)

(** The CommonJS build (lines 1-48) is the same module compiled for
    [require]: optional chaining is replaced by a call of the helper
    [_optionalChain] (line 1), which walks an array of operations.  The
    values that travel through a chain are of more kinds than the data of a
    request: descriptors, their functions, and the [call] method that every
    function has. *)
Inductive jv : Type :=
| JvUndefined
| JvNull
| JvData (v : value)
| JvRequest (r : request)
| JvDescriptor (d : PropertyDescriptor)
| JvGetter (g : request -> value)
| JvSetter (s : value -> request -> request)
| JvFunctionCall.

(** A data value as a value of a chain. *)
Definition of_value (v : value) : jv :=
  match v with
  | VUndefined => JvUndefined
  | VNull => JvNull
  | _ => JvData v
  end.

(** [x == null]. *)
Definition is_nullish (x : jv) : bool :=
  match x with
  | JvUndefined | JvNull => true
  | _ => false
  end.

(** [x.name]: reading a property of [undefined] or [null] throws; a
    descriptor has [get] and [set] (or [value]), a function has [call], a
    request has its own properties, an object its fields. *)
Definition jv_member (x : jv) (name : string) : completion jv :=
  match x with
  | JvUndefined | JvNull =>
      Throws (TypeError "Cannot read properties of undefined or null")
  | JvDescriptor (AccessorDescriptor g s) =>
      Returns (if String.eqb name "get"
               then match g with Some g => JvGetter g | None => JvUndefined end
               else if String.eqb name "set"
               then match s with Some s => JvSetter s | None => JvUndefined end
               else JvUndefined)
  | JvDescriptor (DataDescriptor v) =>
      Returns (if String.eqb name "value" then of_value v else JvUndefined)
  | JvGetter _ | JvSetter _ | JvFunctionCall =>
      Returns (if String.eqb name "call" then JvFunctionCall else JvUndefined)
  | JvRequest r => Returns (of_value (default VUndefined (r !! name)))
  | JvData (VObj fields) =>
      Returns (of_value (default VUndefined (assoc name fields)))
  | JvData _ => Returns JvUndefined
  end.

(** Calling [f] with [thisArg] as [this] and [args] as arguments.  A getter
    or a setter is a method of a request; [Function.prototype.call] calls
    its own [this] with its first argument as [this] and the others as
    arguments; what is not a function cannot be called. *)
Fixpoint invoke (args : list jv) (f thisArg : jv) : completion jv :=
  match f with
  | JvGetter g =>
      match thisArg with
      | JvRequest r => Returns (of_value (g r))
      | _ => Throws (TypeError "getter called on what is not a request")
      end
  | JvSetter s =>
      match thisArg, args with
      | JvRequest r, JvData v :: _ => Returns (JvRequest (s v r))
      | JvRequest r, JvNull :: _ => Returns (JvRequest (s VNull r))
      | JvRequest r, (JvUndefined :: _ | []) => Returns (JvRequest (s VUndefined r))
      | _, _ => Throws (TypeError "setter called on what is not a request")
      end
  | JvFunctionCall =>
      match args with
      | a :: rest => invoke rest thisArg a
      | [] =>
          match thisArg with
          | JvGetter _ | JvSetter _ =>
              Throws (TypeError "accessor called on what is not a request")
          | _ => Throws (TypeError "not a function")
          end
      end
  | _ => Throws (TypeError "not a function")
  end.

(** One operation of a chain, with the function that follows it in the
    array: for an access the function receives the current value, for a
    call it receives a function that calls the current value. *)
Inductive chain_op : Type :=
| access (fn : jv -> completion jv)
| optionalAccess (fn : jv -> completion jv)
| call_op (fn : (list jv -> completion jv) -> completion jv)
| optionalCall (fn : (list jv -> completion jv) -> completion jv).

(** [op === 'optionalAccess' || op === 'optionalCall']. *)
Definition is_optional (op : chain_op) : bool :=
  match op with
  | optionalAccess _ | optionalCall _ => true
  | _ => false
  end.

(** [(...args) => value.call(lastAccessLHS, ...args)]: the [call] method of
    the current value is looked up and called on that value. *)
Definition bound_call (value lastAccessLHS : jv) (args : list jv)
  : completion jv :=
  match jv_member value "call" with
  | Returns m => invoke (lastAccessLHS :: args) m value
  | Throws e => Throws e
  end.

(** The [while] loop of [_optionalChain]: [ops] is what is left of the
    array from index [i] on. *)
Fixpoint optionalChain_loop (lastAccessLHS value : jv) (ops : list chain_op)
  : completion jv :=
  match ops with
  | [] => Returns value
  | op :: ops' =>
      if is_optional op && is_nullish value then Returns JvUndefined
      else
        match op with
        | access fn | optionalAccess fn =>
            match fn value with
            | Returns value' => optionalChain_loop value value' ops'
            | Throws e => Throws e
            end
        | call_op fn | optionalCall fn =>
            match fn (bound_call value lastAccessLHS) with
            | Returns value' => optionalChain_loop JvUndefined value' ops'
            | Throws e => Throws e
            end
        end
  end.

(** [_optionalChain(ops)], the array being [head] followed by pairs of an
    operation name and a function. *)
Definition optionalChain (head : jv) (ops : list chain_op) : completion jv :=
  optionalChain_loop JvUndefined head ops.

(** The [get()] of the patch in the CommonJS build (lines 11-14). *)
Definition patched_get_cjs (descriptor : PropertyDescriptor) (this : request)
  : completion jv :=
  if hasOwn this "_query"
  then Returns (of_value (default VUndefined (this !! "_query")))
  else optionalChain (JvDescriptor descriptor)
         [optionalAccess (fun x => jv_member x "get");
          optionalAccess (fun x => jv_member x "call");
          call_op (fun f => f [JvRequest this])].

(** ** Concrete validators and requests *)

Module Examples.

(** A world that records which validators ran. *)
Definition log : Type := list string.

(** For the examples, a strict object built from what is not a field
    mapping throws when it is asked to parse. *)
#[export] Instance throwing_on_malformed : MalformedShape log :=
  fun _ _ w => (Throws (TypeError "the shape is not an object"), w).

(** A custom validator: it records its name and gives a fixed answer. *)
Definition answering (name : string) (answer : completion parsed) : jsv log :=
  JObject [("safeParseAsync", JFunction (fun _ w => (answer, w ++ [name])))].

(** [z.coerce.number()] on the few inputs the examples use. *)
Definition to_number (input : value) : parsed :=
  match input with
  | VNum n => Success (VNum n)
  | VStr "42" => Success (VNum 42)
  | VStr "5" => Success (VNum 5)
  | _ => Failure [Issue "invalid_type" [] "Invalid input: expected number"]
  end.

Definition coerce_number : jsv log :=
  JObject [("safeParseAsync",
            JFunction (fun input w =>
              (Returns (to_number input), w ++ ["coerce_number"])))].

(** The [next] of a route whose remaining handlers return nothing. *)
Definition next : callback log :=
  fun _ w => (Returns VUndefined, w ++ ["next"]).

(** The [query] getter of express 5, reduced to one URL. *)
Definition express_query (this : request) : value :=
  match this !! "url" with
  | Some (VStr "/items?page=2") => VObj [("page", VStr "2")]
  | _ => VObj []
  end.

(** What [Object.getOwnPropertyDescriptor(express.request, "query")] gives
    under express 5: an accessor with a getter only. *)
Definition express5 : option PropertyDescriptor :=
  Some (AccessorDescriptor (Some express_query) None).

(** [validate({})]: every entry omitted. *)
Definition no_schemas : CompleteValidationSchema log :=
  Schemas JUndefined JUndefined JUndefined.

Definition too_big : issue := Issue "too_big" [] "Too big".
Definition too_small : issue := Issue "too_small" [] "Too small".
Definition invalid_id : issue := Issue "invalid_format" ["id"] "Invalid id".

(** [z.string().max(4)]. *)
Definition max4 (input : value) : parsed :=
  match input with
  | VStr s => if (String.length s <=? 4)%nat then Success (VStr s)
              else Failure [too_big]
  | _ => Failure [Issue "invalid_type" [] "Invalid input: expected string"]
  end.

Definition string_max4 : jsv log :=
  JObject [("safeParseAsync",
            JFunction (fun input w =>
              (Returns (max4 input), w ++ ["string_max4"])))].

(** Three custom validators that succeed and record the order of their
    calls. *)
Definition recording : CompleteValidationSchema log :=
  {| params := answering "params" (Returns (Success (VObj [])));
     query := answering "query" (Returns (Success (VObj [])));
     body := answering "body" (Returns (Success (VObj []))) |}.

(** A query validator that fails without reporting any issue. *)
Definition silent_failure : CompleteValidationSchema log :=
  {| params := JUndefined;
     query := answering "query" (Returns (Failure []));
     body := JUndefined |}.

(** A query validator that fails and a body validator that throws. *)
Definition failing_then_throwing : CompleteValidationSchema log :=
  {| params := JUndefined;
     query := answering "query" (Returns (Failure [too_small]));
     body := answering "body" (Throws (Thrown (VStr "boom"))) |}.

(** Three validators that fail, each with its own issue. *)
Definition all_failing : CompleteValidationSchema log :=
  {| params := answering "params" (Returns (Failure [invalid_id]));
     query := answering "query" (Returns (Failure [too_small]));
     body := answering "body" (Returns (Failure [too_big])) |}.

(** The schema of the documentation, reduced:
    [{params: {id: z.coerce.number()}, body: {title: z.string().max(4)}}]. *)
Definition documented : CompleteValidationSchema log :=
  {| params := JObject [("id", coerce_number)];
     query := JUndefined;
     body := JObject [("title", string_max4)] |}.

(** [{params: z.coerce.number(), body: {title: z.string().max(4)}}]: one
    entry is a validator, one is absent, one is a field mapping. *)
Definition mixed : CompleteValidationSchema log :=
  {| params := coerce_number;
     query := JUndefined;
     body := JObject [("title", string_max4)] |}.

(** A request for [/items/42] whose title is too long. *)
Definition long_title : request :=
  <["params" := VObj [("id", VStr "42")]]>
    (<["body" := VObj [("title", VStr "toolong")]]> ∅).

(** A request whose JSON body is the literal [null]. *)
Definition null_body : request := <["body" := VNull]> ∅.

(** A request for [/items?page=2], with nothing else on it. *)
Definition page2 : request := <["url" := VStr "/items?page=2"]> ∅.

(** [{params: {id: z.coerce.number()}}] and a request for [/items/42]. *)
Definition only_params : CompleteValidationSchema log :=
  {| params := JObject [("id", coerce_number)];
     query := JUndefined;
     body := JUndefined |}.

Definition item42 : request := <["params" := VObj [("id", VStr "42")]]> ∅.

(** [{body: {title: z.string().max(4)}}] and a body with a long title and
    an extra field. *)
Definition only_body : CompleteValidationSchema log :=
  {| params := JUndefined;
     query := JUndefined;
     body := JObject [("title", string_max4)] |}.

Definition long_title_and_extra : request :=
  <["body" := VObj [("title", VStr "toolong"); ("extra", VStr "x")]]> ∅.

(** A query validator that coerces the page number. *)
Definition query_coerced : CompleteValidationSchema log :=
  {| params := JUndefined;
     query := answering "query" (Returns (Success (VObj [("page", VNum 2)])));
     body := JUndefined |}.

End Examples.

(** ** Properties *)

Section Properties.

Context {W : Type} {zod : MalformedShape W}.
Variable descriptor : option PropertyDescriptor.
Implicit Types (tr : list event) (t : DataType) (r : request) (v : value).

(** *** Assignments to the request *)

Lemma prop_set_install r t v :
  prop_set (install descriptor) r (key t) v
  = Returns (stored descriptor r (key t) v).
Proof.
  unfold stored, prop_set, install.
  destruct (r !! key t); [done|].
  destruct (String.eqb (key t) "query"); [|done].
  by destruct descriptor.
Qed.

Lemma holds_stored r t v : holds descriptor (stored descriptor r (key t) v) t v.
Proof.
  unfold holds, stored, prop_set, install.
  destruct (r !! key t) eqn:Hown; cbn.
  { left. by simplify_map_eq. }
  destruct t; cbn in *; try (left; by simplify_map_eq).
  destruct descriptor; cbn.
  - right. unfold patched_set. repeat split; [|done|]; by simplify_map_eq.
  - left. by simplify_map_eq.
Qed.

Lemma holds_frame r t t' v v' :
  t ≠ t' → holds descriptor r t v →
  holds descriptor (stored descriptor r (key t') v') t v.
Proof.
  intros Hne [Hown|(-> & Hown & Hd & Hshadow)];
    unfold holds, stored, prop_set, install.
  - left. destruct (r !! key t'); destruct t, t'; try done; cbn in *;
      try destruct descriptor; unfold patched_set; by simplify_map_eq.
  - right. destruct (r !! key t'); destruct t'; try done; cbn in *;
      by simplify_map_eq.
Qed.

Lemma holds_get r t v :
  holds descriptor r t v → prop_get (install descriptor) r (key t) = v.
Proof.
  intros [Hown|(-> & Hown & [d ->] & Hshadow)]; unfold prop_get.
  - by rewrite Hown.
  - cbn. rewrite Hown. cbn. unfold patched_get, hasOwn. rewrite Hshadow.
    rewrite bool_decide_true; [done|by eexists].
Qed.

(** A field other than [query] is read from the own properties, which an
    assignment to another category leaves alone. *)
Lemma get_frame r t t' v :
  t ≠ t' → t ≠ Query →
  prop_get (install descriptor) (stored descriptor r (key t') v) (key t)
  = prop_get (install descriptor) r (key t).
Proof.
  intros Hne Hq. unfold prop_get, stored, prop_set, install.
  destruct (r !! key t'); destruct t, t'; try done; cbn in *;
    try destruct descriptor; unfold patched_set; by simplify_map_eq.
Qed.

Lemma stored_lookup r t t' v :
  t ≠ t' → stored descriptor r (key t') v !! key t = r !! key t.
Proof.
  intros Hne. unfold stored, prop_set, install.
  destruct (r !! key t'); destruct t, t'; try done; cbn in *;
    try destruct descriptor; unfold patched_set; by simplify_map_eq.
Qed.

Lemma stored_shadow r t' v :
  t' ≠ Query → stored descriptor r (key t') v !! "_query" = r !! "_query".
Proof.
  intros Hne. unfold stored, prop_set, install.
  destruct (r !! key t'); destruct t'; try done; cbn in *; by simplify_map_eq.
Qed.

(** *** One iteration, the loop, the handler *)

(** The body of the loop, by what the validator does. *)
Lemma validate_type_cases (validation : CompleteValidationSchema W) t
    (issues : list issue) (s : state W) :
  let input :=
    nullish (prop_get (install descriptor) (req s) (key t)) empty_object in
  ∃ rep w',
    safeParseAsync (entry validation t) input (world s) = (rep, w') ∧
    validate_type descriptor validation t issues s =
      match rep with
      | Returns (Success data) =>
          (Done issues,
           State (stored descriptor (req s) (key t) data) w'
                 (trace s ++ [Called t input; Settled t rep; Assigned t data]))
      | Returns (Failure found) =>
          (Done (issues ++ found),
           State (req s) w' (trace s ++ [Called t input; Settled t rep]))
      | Throws e =>
          (Rejected (Uncaught e),
           State (req s) w' (trace s ++ [Called t input; Settled t rep]))
      end.
Proof.
  intros input.
  destruct (safeParseAsync (entry validation t) input (world s))
    as [rep w'] eqn:Hcall.
  exists rep, w'. split; [done|].
  unfold validate_type, mbind, M_bind, read, await_safeParseAsync.
  fold input. rewrite Hcall.
  destruct rep as [[data|found]|e]; cbn; [|done..].
  unfold assign. cbn. rewrite prop_set_install. cbn.
  by rewrite <- app_assoc.
Qed.

Lemma raises_iff (l : list issue) : (0 <? length l)%nat = true ↔ l ≠ [].
Proof. destruct l; cbn; split; intros; done. Qed.

Lemma proceeds_iff (l : list issue) : (0 <? length l)%nat = false ↔ l = [].
Proof. destruct l; cbn; split; intros; done. Qed.

(** The handler: the loop, then the test on the issues. *)
Lemma handle_eq (schemas : CompleteValidationSchema W) res (next : callback W)
    r (w : W) :
  handle descriptor schemas res next r w =
  match for_of types (validate_type descriptor (validation schemas)) []
               (State r w []) with
  | (Done issues, s) =>
      if (0 <? length issues)%nat then (Rejected (ZodError issues), s)
      else call next [] s
  | (Rejected rj, s) => (Rejected rj, s)
  end.
Proof.
  unfold handle, validate. cbn zeta. unfold mbind at 1, M_bind at 1.
  destruct (for_of types _ _ _) as [[issues|rj] s]; [|done].
  by destruct (0 <? length issues)%nat.
Qed.

Lemma attempted_app tr1 tr2 :
  attempted (tr1 ++ tr2) = attempted tr1 ++ attempted tr2.
Proof. apply omap_app. Qed.

Lemma next_calls_app tr1 tr2 :
  next_calls (tr1 ++ tr2) = next_calls tr1 ++ next_calls tr2.
Proof. apply omap_app. Qed.

Lemma threw_app tr1 tr2 : threw (tr1 ++ tr2) = threw tr1 || threw tr2.
Proof. apply existsb_app. Qed.

Lemma collected_app tr1 tr2 :
  collected (tr1 ++ tr2) = collected tr1 ++ collected tr2.
Proof. apply flat_map_app. Qed.

Lemma collected_incl tr t found :
  In (Settled t (Returns (Failure found))) tr → incl found (collected tr).
Proof.
  induction tr as [|e tr IH]; [done|].
  intros [->|Hin]; unfold collected; cbn [flat_map].
  - apply incl_appl, incl_refl.
  - apply incl_appr, IH, Hin.
Qed.

(** The loop over any list of categories: it calls [next] never, and either
    runs to the end of the list, having collected the issues of the
    failures, or stops at the first validator that throws. *)
Lemma for_of_validate_type (validation : CompleteValidationSchema W)
    (l : list DataType) (issues : list issue) (s : state W) :
  let run := for_of l (validate_type descriptor validation) issues s in
  ∃ tr, trace run.2 = trace s ++ tr ∧ next_calls tr = [] ∧
    match run.1 with
    | Done issues' =>
        threw tr = false ∧ issues' = issues ++ collected tr ∧ attempted tr = l
    | Rejected rj =>
        threw tr = true ∧
        ∃ t e, rj = Uncaught e ∧ last tr = Some (Settled t (Throws e))
    end.
Proof.
  unfold threw, collected, attempted, next_calls.
  revert issues s. induction l as [|t l IH]; intros issues s; cbn zeta.
  { exists []. cbn. by rewrite !app_nil_r. }
  cbn [for_of]. unfold mbind, M_bind.
  destruct (validate_type_cases validation t issues s) as (rep & w' & _ & ->).
  destruct rep as [[data|found]|e].
  1, 2: match goal with |- context [for_of ?l' ?b ?i ?s'] =>
      destruct (IH i s') as (tr & Htr & Hnext & Hres);
      destruct (for_of l' b i s') as [[issues'|rj] s''] end;
    cbn [fst snd trace] in *; rewrite Htr, <- app_assoc; eexists;
    (split; [done|]); rewrite omap_app, Hnext; (split; [done|]);
    rewrite ?existsb_app, ?flat_map_app, ?omap_app; cbn;
    [ destruct Hres as (? & ? & ?); rewrite ?app_nil_r, ?app_assoc;
      repeat split; congruence
    | destruct Hres as (? & t' & e & -> & Hlast); split; [done|];
      exists t', e; split; [done|]; by destruct tr ].
  cbn. eexists. split; [done|]. cbn. split; [done|]. split; [done|].
  by exists t, e.
Qed.

(** Running the handler symbolically: one case per answer of each
    validator called, of the test on the issues, and of [next]. *)
Ltac run_type :=
  match goal with
  | |- context [validate_type ?d ?v ?t ?i ?s] =>
      let rep := fresh "rep" in let w' := fresh "w" in
      let Hcall := fresh "Hcall" in let Hrun := fresh "Hrun" in
      destruct (validate_type_cases v t i s) as (rep & w' & Hcall & Hrun);
      rewrite Hrun; clear Hrun;
      destruct rep as [[?data|?found]|?e];
      cbn [fst snd req world trace app mret M_ret] in *
  end.

Ltac run_end next :=
  cbn [app];
  match goal with
  | |- context [(0 <? length ?l)%nat] =>
      let Hlen := fresh "Hlen" in
      destruct (0 <? length l)%nat eqn:Hlen;
      [apply raises_iff in Hlen | apply proceeds_iff in Hlen]
  | _ => idtac
  end;
  unfold throw, call; cbn [world];
  try match goal with
  | |- context [next [] ?w] => destruct (next [] w) as [[?v|?e] ?w]
  end; cbn [fst snd req world trace app] in *.

Ltac run_handler next :=
  unfold handle, validate, types; cbn [for_of]; unfold mbind, M_bind;
  match goal with
  | |- context [validation ?s] => generalize (validation s); intros ?normal
  end;
  repeat run_type; run_end next.

(** *** The claims about the handler *)

(** C1 (amended).  The categories are validated in the order of [types]:
    query, then params, then body.  The attempts are made one at a time,
    each settling before anything else happens.  The validators called are
    always an initial part of that list, and never does the attempt-parse
    of params settle before that of query is called.  When no validator
    throws, all three are called, the attempt-parse of query settles before
    that of params is called, and that of params before that of body is
    called.  Whether or not a validator throws, a category is attempted
    only after the attempt-parse of every earlier category has settled by
    returning, and a throw is the last thing that happens: no category is
    attempted after it. *)
Theorem validation_order_query_params_body
    (schemas : CompleteValidationSchema W) res (next : callback W) r (w : W) :
  let tr := trace (handle descriptor schemas res next r w).2 in
  attempted tr `prefix_of` types ∧
  completes_before Params Query tr = false ∧
  (threw tr = false →
     attempted tr = [Query; Params; Body] ∧
     completes_before Query Params tr = true ∧
     completes_before Params Body tr = true) ∧
  sequential tr = true ∧
  (∀ a b, In b (after a types) → In b (attempted tr) →
     completes_before a b tr = true ∧
     completes_before b a tr = false ∧
     ∃ p, In (Settled a (Returns p)) tr) ∧
  (∀ t e, In (Settled t (Throws e)) tr →
     last tr = Some (Settled t (Throws e))).
Proof.
  cbn zeta. split; [|split; [|split; [|split; [|split]]]].
  - run_handler next.
    all: cbn; unfold types; try done.
    all: try (by eexists [_;_]); try (by eexists [_]); try by eexists [].
  - run_handler next; done.
  - run_handler next; done.
  - run_handler next; done.
  - intros a b Hafter.
    assert (a = Query ∧ b = Params ∨ a = Query ∧ b = Body
            ∨ a = Params ∧ b = Body) as Hpair
      by (destruct a, b; vm_compute in Hafter; intuition congruence).
    clear Hafter.
    destruct Hpair as [[-> ->]|[[-> ->]|[-> ->]]]; run_handler next.
    all: intros Hattempted; cbn in Hattempted;
      decompose [or] Hattempted; try done.
    all: (split; [reflexivity|split; [reflexivity|]]); eexists;
      cbn [In]; repeat first [left; reflexivity | right].
  - run_handler next.
    all: cbn [In last]; intros ? ? Hin; decompose [or] Hin; try done.
    all: match goal with
         | H : Settled _ _ = Settled _ _ |- _ => injection H as ? ?; by subst
         end.
Qed.

(** C2 (amended).  The handler rejects with a [ZodError] exactly when no
    validator threw and the issues collected from the failures returned are
    not empty, and the error carries all of them: the issues of every
    failure returned are among them.  [next] is called, once and with no
    argument, exactly when no validator threw and no issue was collected. *)
Theorem aggregated_error_iff_issues_collected
    (schemas : CompleteValidationSchema W) res (next : callback W) r (w : W) :
  let run := handle descriptor schemas res next r w in
  let tr := trace run.2 in
  (∀ issues, run.1 = Rejected (ZodError issues)
             ↔ threw tr = false ∧ issues = collected tr ∧ issues ≠ []) ∧
  (∀ t found,
     In (Settled t (Returns (Failure found))) tr → incl found (collected tr)) ∧
  next_calls tr
  = (if threw tr then [] else if collected tr is [] then [[]] else []).
Proof.
  cbn zeta. split; [|split; [intros t found; apply collected_incl|]].
  all: rewrite handle_eq.
  all: destruct (for_of_validate_type (validation schemas) types []
                   (State r w [])) as (tr & Htr & Hnext & Hloop).
  all: destruct (for_of types _ _ _) as [[issues'|rj] s1];
    cbn [fst snd trace app] in *.
  - destruct Hloop as (Hthrew & -> & _).
    destruct (0 <? length (collected tr))%nat eqn:Hlen;
      [apply raises_iff in Hlen | apply proceeds_iff in Hlen].
    + cbn. rewrite Htr. intros issues. split.
      * by intros [= <-].
      * by intros (_ & -> & _).
    + unfold call. destruct (next [] (world s1)) as [[v|e] w']; cbn;
        rewrite Htr, collected_app, Hlen; cbn; intros issues;
        (split; [done|]); by intros (_ & -> & ?).
  - destruct Hloop as (Hthrew & t & e & -> & _). cbn. rewrite Htr, Hthrew.
    intros issues. split; [done|]. by intros [? _].
  - destruct Hloop as (Hthrew & -> & _).
    destruct (0 <? length (collected tr))%nat eqn:Hlen;
      [apply raises_iff in Hlen | apply proceeds_iff in Hlen].
    + cbn. rewrite Htr, Hthrew, Hnext. by destruct (collected tr).
    + unfold call. destruct (next [] (world s1)) as [[v|e] w']; cbn;
        by rewrite Htr, next_calls_app, threw_app, collected_app, Hthrew,
             Hnext, Hlen.
  - destruct Hloop as (Hthrew & _). cbn. by rewrite Htr, Hthrew, Hnext.
Qed.

(** C8.  When the attempt-parse of some category throws [e], the promise
    of the handler is rejected with that same [e]: no [ZodError] is raised,
    [next] is not called, and the throw is the last thing that happens. *)
Theorem validator_exception_propagates
    (schemas : CompleteValidationSchema W) res (next : callback W) r (w : W)
    t (e : exn) :
  let run := handle descriptor schemas res next r w in
  In (Settled t (Throws e)) (trace run.2) →
  run.1 = Rejected (Uncaught e) ∧
  (∀ issues, run.1 ≠ Rejected (ZodError issues)) ∧
  next_calls (trace run.2) = [] ∧
  last (trace run.2) = Some (Settled t (Throws e)).
Proof.
  run_handler next.
  all: cbn [In]; intros Hin; decompose [or] Hin; clear Hin; try done.
  all: match goal with H : Settled _ _ = Settled _ _ |- _ => injection H as <- <- end.
  all: done.
Qed.

(** A category whose validator returned a success has been assigned its
    data, and the request still holds that data when the handler ends,
    however it ends. *)
Lemma success_is_held
    (schemas : CompleteValidationSchema W) res (next : callback W) r (w : W)
    t (data : value) :
  let run := handle descriptor schemas res next r w in
  In (Settled t (Returns (Success data))) (trace run.2) →
  In (Assigned t data) (trace run.2) ∧
  holds descriptor (req run.2) t data.
Proof.
  run_handler next.
  all: cbn [In]; intros Hin; decompose [or] Hin; clear Hin; try done.
  all: match goal with
       | H : Settled _ _ = Settled _ _ |- _ => injection H as ? ?; subst
       end.
  all: split; [cbn; tauto|].
  all: repeat first [apply holds_stored | apply holds_frame; [done|]].
Qed.

(** C4.  When the validator of category [t] returns a failure, the field
    of [t] is not assigned (its own property, and the shadow slot for
    query, are what they were), the category that comes next is attempted
    all the same, and, unless a validator throws, all three categories are
    attempted and the issues of the failure are among those collected, with
    which the handler rejects as soon as there is one. *)
Theorem failure_keeps_field_and_continues
    (schemas : CompleteValidationSchema W) res (next : callback W) r (w : W)
    t (found : list issue) :
  let run := handle descriptor schemas res next r w in
  let tr := trace run.2 in
  In (Settled t (Returns (Failure found))) tr →
  (∀ v, ¬ In (Assigned t v) tr) ∧
  req run.2 !! key t = r !! key t ∧
  (t = Query → req run.2 !! "_query" = r !! "_query") ∧
  (∀ t', head (after t types) = Some t' → In t' (attempted tr)) ∧
  (threw tr = false →
     attempted tr = types ∧
     incl found (collected tr) ∧
     (found ≠ [] → run.1 = Rejected (ZodError (collected tr)))).
Proof.
  run_handler next.
  all: cbn [In]; intros Hin; decompose [or] Hin; clear Hin; try done.
  all: match goal with
       | H : Settled _ _ = Settled _ _ |- _ => injection H as ? ?; subst
       end.
  all: (split; [|split; [|split; [|split]]]);
    [ intros ? Hin; cbn [In] in Hin; decompose [or] Hin; done
    | rewrite ?stored_lookup by done; done
    | intros Hq; try discriminate Hq; rewrite ?stored_shadow by done; done
    | cbn; first [ intros t' [= <-]; cbn; tauto | intros t' [=] ]
    | cbn; intros Hthrew; try discriminate Hthrew ].
  all: rewrite ?app_nil_r.
  all: (split; [done|split]); [eauto using incl_refl, incl_appl, incl_appr|].
  all: intros Hne; rewrite <- ?app_assoc; try done; exfalso.
  all: repeat match goal with
              | H : _ ++ _ = [] |- _ => apply app_eq_nil in H as [? ?]
              end; by subst.
Qed.

(** C5.  Every category that validated successfully is overwritten with
    the data its validator returned, and reads as that data when the
    handler ends, in particular when it ends by raising the [ZodError] for
    the failure of another category: nothing is rolled back. *)
Theorem successful_fields_stay_overwritten
    (schemas : CompleteValidationSchema W) res (next : callback W) r (w : W)
    t (data : value) (issues : list issue) :
  let run := handle descriptor schemas res next r w in
  run.1 = Rejected (ZodError issues) →
  In (Settled t (Returns (Success data))) (trace run.2) →
  In (Assigned t data) (trace run.2) ∧
  prop_get (install descriptor) (req run.2) (key t) = data.
Proof.
  intros run _ Hsettled.
  destruct (success_is_held schemas res next r w t data Hsettled)
    as [Hassigned Hheld].
  split; [exact Hassigned|].
  apply holds_get, Hheld.
Qed.

Lemma nullish_never_nullish (x : value) :
  nullish x empty_object ≠ VUndefined ∧ nullish x empty_object ≠ VNull.
Proof. by destruct x. Qed.

(** C6 (amended).  The value passed to the validator of a category is the
    value of the category's field on the request as the handler received it
    (no earlier step of the handler changes that field), unless that value
    is [undefined] or [null], in which cases it is the empty object:
    neither [undefined] nor [null] is ever passed to a validator. *)
Theorem validator_input_nullish_default
    (schemas : CompleteValidationSchema W) res (next : callback W) r (w : W)
    t (input : value) :
  let run := handle descriptor schemas res next r w in
  let current := prop_get (install descriptor) r (key t) in
  In (Called t input) (trace run.2) →
  input = nullish current empty_object ∧
  (current = VUndefined ∨ current = VNull → input = empty_object) ∧
  (current ≠ VUndefined → current ≠ VNull → input = current) ∧
  input ≠ VUndefined ∧ input ≠ VNull.
Proof.
  intros run current Hin.
  assert (input = nullish current empty_object) as ->.
  { revert Hin. subst run current. run_handler next.
    all: cbn [In]; intros Hin; decompose [or] Hin; clear Hin; try done.
    all: match goal with
         | H : Called _ _ = Called _ _ |- _ => injection H as ? ?; subst
         end.
    all: change "query" with (key Query); change "params" with (key Params);
      change "body" with (key Body).
    all: by rewrite ?get_frame by done. }
  split; [done|]. split; [by intros [->| ->]|].
  split; [by destruct current|]. apply nullish_never_nullish.
Qed.

(** The loop gives the same result on the same request whatever the world,
    when the validators are deterministic. *)
Lemma for_of_deterministic (validation : CompleteValidationSchema W)
    (l : list DataType) (issues : list issue) (s s' : state W) :
  (∀ t, deterministic (safeParseAsync (entry validation t))) →
  req s = req s' →
  let run := for_of l (validate_type descriptor validation) issues s in
  let run' := for_of l (validate_type descriptor validation) issues s' in
  run.1 = run'.1 ∧ req run.2 = req run'.2 ∧
  ∃ tr, trace run.2 = trace s ++ tr ∧ trace run'.2 = trace s' ++ tr.
Proof.
  intros Hdet. revert issues s s'.
  induction l as [|t l IH]; intros issues s s' Hreq; cbn zeta.
  { cbn. split; [done|]. split; [done|]. exists []. by rewrite !app_nil_r. }
  destruct s as [r0 w0 tr0], s' as [r0' w0' tr0']. cbn in Hreq. subst r0'.
  cbn [for_of]. unfold mbind, M_bind.
  destruct (validate_type_cases validation t issues (State r0 w0 tr0))
    as (rep & w1 & Hcall & ->).
  destruct (validate_type_cases validation t issues (State r0 w0' tr0'))
    as (rep' & w1' & Hcall' & ->).
  cbn [req world trace] in *.
  assert (rep = rep') as <-.
  { pose proof (Hdet t (nullish (prop_get (install descriptor) r0 (key t))
                                empty_object) w0 w0') as Heq.
    by rewrite Hcall, Hcall' in Heq. }
  destruct rep as [[data|found]|e]; cbn [fst snd].
  1, 2: match goal with
        | |- context [(for_of ?l' ?b ?i ?s2).1 = (for_of ?l' ?b ?i ?s3).1] =>
            destruct (IH i s2 s3) as (Hres & Hr & tr & Htr & Htr'); [done|];
            destruct (for_of l' b i s2) as [[?|?] ?],
                     (for_of l' b i s3) as [[?|?] ?]
        end;
      try done; cbn [fst snd trace] in *;
      (split; [done|]); (split; [done|]);
      rewrite Htr, Htr', <- !app_assoc; by eexists.
  cbn. split; [done|]. split; [done|]. by eexists.
Qed.

(** C9.  With deterministic validators, two invocations of the handler on
    the same request, in whatever worlds and with whatever [next], perform
    the same calls with the same answers, leave the same request, and raise
    the same [ZodError] if any: nothing of one invocation reaches the
    other. *)
Theorem handler_has_no_hidden_state
    (schemas : CompleteValidationSchema W) res res' (next next' : callback W)
    r (w w' : W) :
  (∀ t, deterministic (safeParseAsync (entry (validation schemas) t))) →
  let run := handle descriptor schemas res next r w in
  let run' := handle descriptor schemas res' next' r w' in
  trace run.2 = trace run'.2 ∧
  req run.2 = req run'.2 ∧
  (∀ issues, run.1 = Rejected (ZodError issues)
             ↔ run'.1 = Rejected (ZodError issues)).
Proof.
  intros Hdet. cbn zeta. rewrite !handle_eq.
  destruct (for_of_deterministic (validation schemas) types []
              (State r w []) (State r w' []) Hdet eq_refl)
    as (Hres & Hreq & tr & Htr & Htr').
  destruct (for_of _ _ _ _) as [[issues1|rj1] s1],
           (for_of _ _ _ _) as [[issues2|rj2] s2];
    cbn [fst snd trace app] in *; try done.
  - injection Hres as <-.
    destruct (0 <? length issues1)%nat; cbn.
    + by rewrite Htr, Htr', Hreq.
    + unfold call.
      destruct (next [] (world s1)) as [[v|e] w1],
               (next' [] (world s2)) as [[v'|e'] w2]; cbn;
        by rewrite Htr, Htr', Hreq.
  - injection Hres as <-. cbn. by rewrite Htr, Htr', Hreq.
Qed.

(** *** Further properties of the handler *)

(** An assignment to a category changes the own property of that name or
    the shadow slot, and nothing else. *)
Lemma stored_other r t v (k : string) :
  k ≠ key t → k ≠ "_query" → stored descriptor r (key t) v !! k = r !! k.
Proof.
  intros Hk Hshadow. unfold stored, prop_set, install.
  destruct (r !! key t); [by simplify_map_eq|].
  destruct (String.eqb (key t) "query"); [|by simplify_map_eq].
  destruct descriptor; unfold patched_set; by simplify_map_eq.
Qed.

(** Under the patch, an assignment does not create an own [query]
    property. *)
Lemma stored_no_own_query r t v :
  is_Some descriptor → r !! "query" = None →
  stored descriptor r (key t) v !! "query" = None.
Proof.
  intros [d ->] Hown. unfold stored, prop_set, install.
  destruct t; cbn.
  - rewrite Hown. cbn. unfold patched_set. by rewrite lookup_insert_ne.
  - destruct (r !! "params"); by rewrite lookup_insert_ne.
  - destruct (r !! "body"); by rewrite lookup_insert_ne.
Qed.

(** Without the patch, or on a request that has an own [query] property,
    an assignment does not touch the shadow slot, and this stays so. *)
Lemma stored_no_shadow r t v :
  descriptor = None ∨ is_Some (r !! "query") →
  stored descriptor r (key t) v !! "_query" = r !! "_query" ∧
  (descriptor = None ∨ is_Some (stored descriptor r (key t) v !! "query")).
Proof.
  intros Hcase. unfold stored, prop_set, install.
  destruct Hcase as [Hd | [q Hq]].
  - split; [|by left]. rewrite Hd.
    destruct t; cbn; destruct (r !! _); by rewrite lookup_insert_ne.
  - split; [|right]; destruct t; cbn; rewrite ?Hq; cbn.
    + by rewrite lookup_insert_ne.
    + destruct (r !! "params"); by rewrite lookup_insert_ne.
    + destruct (r !! "body"); by rewrite lookup_insert_ne.
    + rewrite lookup_insert_eq. by eexists.
    + destruct (r !! "params"); rewrite lookup_insert_ne by done; by eexists.
    + destruct (r !! "body"); rewrite lookup_insert_ne by done; by eexists.
Qed.

(** X1.  An assignment [req[type] = data] of the handler never throws
    under the installed accessor; it changes no own property of the request
    other than the one named [type] and the shadow slot [_query], which
    only an assignment to the query can change; and the field then reads as
    the data assigned. *)
Theorem assignment_changes_only_its_field r t v :
  ∃ r', prop_set (install descriptor) r (key t) v = Returns r' ∧
        (∀ k : string, k ≠ key t → k ≠ "_query" → r' !! k = r !! k) ∧
        (t ≠ Query → r' !! "_query" = r !! "_query") ∧
        prop_get (install descriptor) r' (key t) = v.
Proof.
  exists (stored descriptor r (key t) v).
  split; [apply prop_set_install|]. split; [|split].
  - intros k Hk Hshadow. by apply stored_other.
  - apply stored_shadow.
  - apply holds_get, holds_stored.
Qed.

(** X2.  Where the validated query is kept.  When a descriptor was found at
    load and the request has no own [query] property, the handler does not
    create one: the validated query goes to the shadow slot.  When no
    descriptor was found, or the request has an own [query] property, the
    shadow slot is never written. *)
Theorem validated_query_placement
    (schemas : CompleteValidationSchema W) res (next : callback W) r (w : W) :
  let run := handle descriptor schemas res next r w in
  (is_Some descriptor → r !! "query" = None → req run.2 !! "query" = None) ∧
  (descriptor = None ∨ is_Some (r !! "query") →
   req run.2 !! "_query" = r !! "_query").
Proof.
  cbn zeta. split.
  - intros Hd Hown. run_handler next.
    all: by repeat apply stored_no_own_query.
  - intros Hcase. run_handler next.
    all: repeat match goal with
         | |- context [stored descriptor ?r' (key ?t) ?v !! "_query"] =>
             let H := fresh in
             assert (descriptor = None ∨ is_Some (r' !! "query")) as H;
             [ repeat first [ assumption | apply stored_no_shadow ]
             | rewrite (proj1 (stored_no_shadow r' t v H)); clear H ]
         end.
    all: done.
Qed.

(** X3.  The handler assigns a field only with the data the validator of
    that category returned. *)
Theorem assigned_only_validated_data
    (schemas : CompleteValidationSchema W) res (next : callback W) r (w : W)
    t (v : value) :
  let tr := trace (handle descriptor schemas res next r w).2 in
  In (Assigned t v) tr → In (Settled t (Returns (Success v))) tr.
Proof.
  run_handler next.
  all: cbn [In]; intros Hin; decompose [or] Hin; clear Hin; try done.
  all: match goal with
       | H : Assigned _ _ = Assigned _ _ |- _ => injection H as ? ?; subst
       end.
  all: tauto.
Qed.

(** X4.  The issues of the failures are collected by category: those of
    query first, then those of params, then those of body; this is the
    list a [ZodError] raised by the handler carries. *)
Theorem issues_ordered_by_category
    (schemas : CompleteValidationSchema W) res (next : callback W) r (w : W) :
  let run := handle descriptor schemas res next r w in
  let tr := trace run.2 in
  collected tr
  = per_category Query tr ++ per_category Params tr ++ per_category Body tr ∧
  (∀ issues, run.1 = Rejected (ZodError issues) →
     issues
     = per_category Query tr ++ per_category Params tr ++ per_category Body tr).
Proof.
  run_handler next.
  all: cbn; rewrite ?app_nil_r; (split; [done|]).
  all: intros issues [=]; subst; by rewrite <- ?app_assoc.
Qed.

Ltac run_end_eq next :=
  cbn [app];
  match goal with
  | |- context [(0 <? length ?l)%nat] =>
      let Hlen := fresh "Hlen" in
      destruct (0 <? length l)%nat eqn:Hlen;
      [apply raises_iff in Hlen | apply proceeds_iff in Hlen]
  | _ => idtac
  end;
  unfold throw, call; cbn [world];
  try match goal with
  | |- context [next [] ?w] =>
      let Hnext := fresh "Hnext" in
      destruct (next [] w) as [[?v|?e] ?w] eqn:Hnext
  end; cbn [fst snd req world trace app] in *.

Ltac run_handler_eq next :=
  unfold handle, validate, types; cbn [for_of]; unfold mbind, M_bind;
  match goal with
  | |- context [validation ?s] => generalize (validation s); intros ?normal
  end;
  repeat run_type; run_end_eq next.

Ltac all_nil :=
  repeat match goal with
         | H : _ ++ _ = [] |- _ => apply app_eq_nil in H as [? ?]
         end; subst.

(** X5.  When the handler calls [next], every category has been attempted,
    no validator has thrown and no issue has been collected; each category
    either validated successfully, and then the request reads as the data
    its validator returned, or failed without reporting any issue. *)
Theorem proceeds_only_when_validated
    (schemas : CompleteValidationSchema W) res (next : callback W) r (w : W) :
  let run := handle descriptor schemas res next r w in
  let tr := trace run.2 in
  next_calls tr ≠ [] →
  attempted tr = types ∧ threw tr = false ∧ collected tr = [] ∧
  ∀ t, (∃ data, In (Settled t (Returns (Success data))) tr ∧
                prop_get (install descriptor) (req run.2) (key t) = data) ∨
       In (Settled t (Returns (Failure []))) tr.
Proof.
  run_handler next.
  all: cbn; intros Hcalled; try done; clear Hcalled.
  all: all_nil; cbn.
  all: (split; [done|]); (split; [done|]); (split; [done|]).
  all: intros [].
  all: first
         [ right; cbn; tauto
         | left; eexists; split; [cbn; tauto|];
           apply holds_get;
           change "query" with (key Query); change "params" with (key Params);
           change "body" with (key Body);
           repeat first [apply holds_stored | apply holds_frame; [done|]] ].
Qed.

(** X6.  When the handler calls [next], it settles as that call completes:
    it resolves with the value [next] returns and is rejected with the
    value [next] throws; the call of [next] is the last thing it does. *)
Theorem handler_settles_as_next
    (schemas : CompleteValidationSchema W) res (next : callback W) r (w : W) :
  let run := handle descriptor schemas res next r w in
  next_calls (trace run.2) ≠ [] →
  last (trace run.2) = Some (NextCalled []) ∧
  ∃ w0, run.1 = settle (next [] w0).1 ∧ world run.2 = (next [] w0).2.
Proof.
  run_handler_eq next.
  all: cbn; intros Hcalled; try done; clear Hcalled.
  all: split; [done|].
  all: eexists; rewrite Hnext; done.
Qed.

(** The entries of [validation] have a [safeParseAsync] function. *)
Lemma validation_callable (schemas : CompleteValidationSchema W) t :
  ∃ f, member (entry (validation schemas) t) "safeParseAsync" = JFunction f.
Proof.
  assert (∀ s : jsv W, isZodType s = true →
            ∃ f, member s "safeParseAsync" = JFunction f) as Hzod.
  { intros s. unfold isZodType.
    destruct (member s "safeParseAsync") as [| |f|]; cbn;
      rewrite ?andb_false_r; try done. by exists f. }
  destruct t; cbn;
    match goal with
    | |- context [if isZodType ?s then _ else _] =>
        destruct (isZodType s) eqn:Hs
    end; try (by apply Hzod); by eexists.
Qed.

(** X7.  The handler throws nothing of its own but the [ZodError]: when it
    is rejected with another value, that value was thrown by the
    [safeParseAsync] function of one of the three validators, or by [next]
    after a validation without issues. *)
Theorem handler_throws_nothing_else
    (schemas : CompleteValidationSchema W) res (next : callback W) r (w : W)
    (e : exn) :
  let run := handle descriptor schemas res next r w in
  run.1 = Rejected (Uncaught e) →
  (∃ t f input w0,
     member (entry (validation schemas) t) "safeParseAsync" = JFunction f ∧
     (f input w0).1 = Throws e ∧
     In (Settled t (Throws e)) (trace run.2)) ∨
  (next_calls (trace run.2) = [[]] ∧ ∃ w0, (next [] w0).1 = Throws e).
Proof.
  pose proof (validation_callable schemas) as Hcallable. revert Hcallable.
  run_handler_eq next.
  all: intros Hcallable [=]; subst.
  all: try (right; split; [done|]; eexists; by rewrite Hnext).
  all: left.
  all: match goal with
       | H : safeParseAsync (entry _ ?t) ?input ?w0 = (Throws _, _) |- _ =>
           destruct (Hcallable t) as [f Hf]; exists t, f, input, w0;
           unfold safeParseAsync in H; rewrite Hf in H; rewrite H
       end.
  all: split; [done|]; split; [done|]; cbn; tauto.
Qed.

(** Reading and assigning are the same after a second installation of the
    patch, over the accessor the first one installed. *)
Lemma install_twice r (k : string) v :
  prop_get (install (install descriptor)) r k
  = prop_get (install descriptor) r k ∧
  prop_set (install (install descriptor)) r k v
  = prop_set (install descriptor) r k v.
Proof.
  unfold prop_get, prop_set. destruct descriptor as [d|]; [|done]. cbn.
  destruct (r !! k); [done|]. destruct (String.eqb k "query"); [|done].
  split; [|done].
  unfold patched_get at 1. unfold original_get.
  unfold patched_get. by destruct (hasOwn r "_query").
Qed.

Lemma validate_type_install_twice (validation : CompleteValidationSchema W)
    t (issues : list issue) (s : state W) :
  validate_type (install descriptor) validation t issues s
  = validate_type descriptor validation t issues s.
Proof.
  unfold validate_type, mbind, M_bind, read, await_safeParseAsync, assign.
  rewrite (proj1 (install_twice (req s) (key t) VUndefined)).
  destruct (safeParseAsync _ _ _) as [[[data|found]|e] w']; cbn; try done.
  by rewrite (proj2 (install_twice (req s) (key t) data)).
Qed.

(** X8.  Loading the module a second time, as when both builds are loaded
    in one process, patches the accessor the first load installed; the
    handlers then behave exactly as after one load. *)
Theorem second_load_changes_nothing
    (schemas : CompleteValidationSchema W) res (next : callback W) r (w : W) :
  handle (install descriptor) schemas res next r w
  = handle descriptor schemas res next r w.
Proof.
  unfold handle, validate, types. cbn [for_of]. unfold mbind, M_bind.
  by rewrite !validate_type_install_twice;
    repeat (destruct (validate_type descriptor _ _ _ _) as [[?|?] ?];
            rewrite ?validate_type_install_twice).
Qed.

(** The input of a validator, by the request the handler received. *)
Lemma called_input
    (schemas : CompleteValidationSchema W) res (next : callback W) r (w : W)
    t (input : value) :
  In (Called t input) (trace (handle descriptor schemas res next r w).2) →
  input = nullish (prop_get (install descriptor) r (key t)) empty_object.
Proof.
  run_handler next.
  all: cbn [In]; intros Hin; decompose [or] Hin; clear Hin; try done.
  all: match goal with
       | H : Called _ _ = Called _ _ |- _ => injection H as ? ?; subst
       end.
  all: change "query" with (key Query); change "params" with (key Params);
    change "body" with (key Body).
  all: by rewrite ?get_frame by done.
Qed.

(** X9.  Two handlers in a row on one request: what the first one has
    validated successfully for a category is what the validator of the
    second one is given for that category (the empty object if that data is
    [undefined] or [null]), not the raw value the request came with. *)
Theorem second_handler_reads_validated_data
    (schemas schemas' : CompleteValidationSchema W) res res'
    (next next' : callback W) r (w w' : W) t (data input : value) :
  let first := handle descriptor schemas res next r w in
  let second := handle descriptor schemas' res' next' (req first.2) w' in
  In (Settled t (Returns (Success data))) (trace first.2) →
  In (Called t input) (trace second.2) →
  input = nullish data empty_object.
Proof.
  intros first second Hfirst Hsecond.
  apply called_input in Hsecond. rewrite Hsecond. f_equal.
  apply holds_get.
  by apply (success_is_held schemas res next r w t data).
Qed.

End Properties.

(** *** The schema normalizer *)

Section Normalization.

Context {W : Type} {zod : MalformedShape W}.

(** The validator [z.strictObject] builds is called through its
    [safeParseAsync]. *)
Lemma safeParseAsync_strictObject (shape : list (string * jsv W)) :
  safeParseAsync (strictObject (JObject shape)) = strict_parse shape.
Proof. reflexivity. Qed.

Lemma isZodType_strictObject (shape : jsv W) :
  isZodType (strictObject shape) = true.
Proof. reflexivity. Qed.

Lemma unrecognized_In (shape : list (string * jsv W))
    (input : list (string * value)) (k : string) :
  In k (List.map fst input) → assoc k shape = None →
  In k (unrecognized shape input).
Proof.
  intros Hin Hshape. unfold unrecognized. apply filter_In. split; [done|].
  rewrite Hshape. apply negb_true_iff, bool_decide_eq_false.
  by intros [? ?].
Qed.

Lemma eval_isZodType_returns (s : jsv W) :
  eval_isZodType s = Returns (isZodType s).
Proof. by destruct s. Qed.

Lemma eval_entry_returns (s : jsv W) :
  eval_entry s
  = Returns (if isZodType s then s
             else strictObject (nullish_schema s (JObject []))).
Proof. unfold eval_entry. by rewrite eval_isZodType_returns. Qed.

(** An entry passes [isZodType] exactly when its [safeParseAsync] is a
    function. *)
Lemma isZodType_exposes (s : jsv W) :
  isZodType s = true ↔ ∃ f, member s "safeParseAsync" = JFunction f.
Proof.
  unfold isZodType. split.
  - destruct s as [| |g|props]; try done. cbn.
    destruct (default JUndefined (assoc "safeParseAsync" props));
      try done. by eexists.
  - intros [f Hf]. destruct s as [| |g|props]; try done.
    cbn in *. by rewrite Hf.
Qed.

Lemma unrecognized_all (input : list (string * value)) :
  unrecognized (W := W) [] input = List.map fst input.
Proof.
  unfold unrecognized. induction (List.map fst input) as [|k l IH]; [done|].
  cbn [List.filter].
  rewrite bool_decide_false by (by intros [? ?]).
  cbn [negb]. by rewrite IH.
Qed.

(** C3.  For every schema set the normalization evaluates without
    throwing, and to three entries.  For every category: an entry whose
    [safeParseAsync] is a function is used as it is; any other entry is
    replaced by the strict object built from it, and from the empty mapping
    when it is absent, in which case the validator accepts the empty object
    and nothing else; the result always has a [safeParseAsync] function;
    and a strict object never accepts an input with a field its mapping
    does not name: unless a field validator throws, it returns a failure
    whose issues name the unrecognized fields. *)
Theorem validation_normalizes_schemas
    (schemas : CompleteValidationSchema W) (t : DataType) :
  eval_validation schemas = Returns (validation schemas) ∧
  (∀ f, member (entry schemas t) "safeParseAsync" = JFunction f →
     entry (validation schemas) t = entry schemas t) ∧
  ((∀ f, member (entry schemas t) "safeParseAsync" ≠ JFunction f) →
     entry (validation schemas) t
     = strictObject (nullish_schema (entry schemas t) (JObject []))) ∧
  (entry schemas t = JUndefined →
     entry (validation schemas) t = strictObject (JObject []) ∧
     ∀ (input : list (string * value)) (w : W),
       safeParseAsync (entry (validation schemas) t) (VObj input) w
       = (Returns (if input is [] then Success (VObj [])
                   else Failure [unrecognized_keys (List.map fst input)]), w)) ∧
  (∃ f, member (entry (validation schemas) t) "safeParseAsync" = JFunction f) ∧
  (∀ (shape : list (string * jsv W)) (input : list (string * value))
     (k : string) (w : W),
     In k (List.map fst input) → assoc k shape = None →
     match (safeParseAsync (strictObject (JObject shape)) (VObj input) w).1 with
     | Returns (Success _) => False
     | Returns (Failure issues) =>
         In k (unrecognized shape input) ∧
         In (unrecognized_keys (unrecognized shape input)) issues
     | Throws _ => True
     end).
Proof.
  assert (∀ t', entry (validation schemas) t'
                = if isZodType (entry schemas t') then entry schemas t'
                  else strictObject (nullish_schema (entry schemas t')
                                                    (JObject []))) as Hentry
    by by intros [].
  repeat apply conj.
  - unfold eval_validation. by rewrite !eval_entry_returns.
  - intros f Hf. rewrite Hentry.
    by rewrite (proj2 (isZodType_exposes _) (ex_intro _ f Hf)).
  - intros Hnone. rewrite Hentry.
    destruct (isZodType (entry schemas t)) eqn:Hzod; [|done].
    apply isZodType_exposes in Hzod as [f Hf]. by destruct (Hnone f).
  - intros Habsent. rewrite Hentry, Habsent. split; [reflexivity|].
    intros input w. cbn. rewrite unrecognized_all. by destruct input.
  - rewrite Hentry. destruct (isZodType (entry schemas t)) eqn:Hzod.
    + by apply isZodType_exposes.
    + by eexists.
  - intros shape input k w Hin Hshape.
    rewrite safeParseAsync_strictObject. unfold strict_parse.
    destruct (parse_fields shape input w) as [[[data found]|e] w']; [|done].
    pose proof (unrecognized_In shape input k Hin Hshape) as Hextra.
    destruct (unrecognized shape input) as [|k' extra] eqn:Heq; [done|].
    cbn [fst]. destruct (found ++ _) as [|i all] eqn:Hall.
    { by apply app_eq_nil in Hall as [_ ?]. }
    split; [done|]. rewrite <- Hall. apply in_or_app. right. by left.
Qed.

(** X10.  Normalizing twice is normalizing once: the validators [validate]
    builds are themselves validators, so that a schema set made of them is
    used as it is. *)
Theorem validation_idempotent (schemas : CompleteValidationSchema W) :
  validation (validation schemas) = validation schemas.
Proof.
  assert (∀ s : jsv W,
            isZodType (if isZodType s then s
                       else strictObject (nullish_schema s (JObject [])))
            = true) as Hzod.
  { intros s. destruct (isZodType s) eqn:Hs; [done|].
    apply isZodType_strictObject. }
  unfold validation at 1. cbn [params query body validation].
  by rewrite !Hzod.
Qed.

End Normalization.

(** *** The query accessor *)

Section QueryField.

Context {W : Type} {zod : MalformedShape W}.

(** Reading what was assigned, for any category and any descriptor found
    at load. *)
Lemma read_after_write (descriptor : option PropertyDescriptor)
    (r : request) (t : DataType) (v : value) :
  prop_set (install descriptor) r (key t) v
  = Returns (stored descriptor r (key t) v) ∧
  prop_get (install descriptor) (stored descriptor r (key t) v) (key t) = v.
Proof.
  split; [apply prop_set_install|]. apply holds_get, holds_stored.
Qed.

(** C7.  With the patch installed over the descriptor [d]: the setter
    always writes the shadow slot [_query]; the getter returns the shadow
    slot when it has been written and the result of the original getter
    otherwise; a request without own [query] property is read and assigned
    through this accessor.  Hence the request on which the handler has
    validated the query successfully reads as the validated data, while a
    request that has no shadow slot reads as the original getter gives it,
    as it did before the patch. *)
Theorem query_accessor_shadow_slot (d : PropertyDescriptor) :
  (∀ (this : request) (v : value), patched_set v this !! "_query" = Some v) ∧
  (∀ (this : request) (v : value), patched_get d (patched_set v this) = v) ∧
  (∀ this : request,
     this !! "_query" = None → patched_get d this = original_get d this) ∧
  (∀ (r : request) (v : value),
     r !! "query" = None →
     prop_set (install (Some d)) r "query" v = Returns (patched_set v r) ∧
     prop_get (install (Some d)) r "query" = patched_get d r) ∧
  (∀ (schemas : CompleteValidationSchema W) res (next : callback W)
     (r : request) (w : W) (data : value),
     let run := handle (Some d) schemas res next r w in
     In (Settled Query (Returns (Success data))) (trace run.2) →
     prop_get (install (Some d)) (req run.2) "query" = data) ∧
  (∀ (r' : request) (g : request → value) s,
     d = AccessorDescriptor (Some g) s →
     r' !! "query" = None → r' !! "_query" = None →
     prop_get (install (Some d)) r' "query" = g r' ∧
     prop_get (Some d) r' "query" = g r').
Proof.
  repeat apply conj.
  - intros this v. unfold patched_set. by simplify_map_eq.
  - intros this v. unfold patched_get, patched_set, hasOwn.
    rewrite lookup_insert_eq. by rewrite bool_decide_true by by eexists.
  - intros this Hshadow. unfold patched_get, hasOwn. rewrite Hshadow.
    by rewrite bool_decide_false by by intros [? ?].
  - intros r v Hown. unfold prop_set, prop_get. by rewrite Hown.
  - intros schemas res next r w data run Hin.
    apply (holds_get (Some d) _ Query).
    by apply (success_is_held (Some d) schemas res next r w Query data).
  - intros r' g s -> Hown Hshadow. unfold prop_get. rewrite Hown. cbn.
    unfold patched_get, hasOwn. rewrite Hshadow.
    by rewrite bool_decide_false by by intros [? ?].
Qed.

(** C10.  Once the setter has run on a request with a value, [undefined]
    included, the getter returns that value: it looks for the shadow slot
    among the own properties and not at the value stored there.  The same
    holds for assigning and reading the [query] property, and assignments
    to the other categories do not change it. *)
Theorem query_setter_value_persists
    (d : PropertyDescriptor) (this : request) (v : value) :
  patched_get d (patched_set v this) = v ∧
  patched_get d (patched_set VUndefined this) = VUndefined ∧
  hasOwn (patched_set v this) "_query" = true ∧
  patched_get d this
  = (if hasOwn this "_query" then default VUndefined (this !! "_query")
     else original_get d this) ∧
  (∃ r', prop_set (install (Some d)) this "query" v = Returns r' ∧
         prop_get (install (Some d)) r' "query" = v ∧
         ∀ t v', t ≠ Query →
           prop_get (install (Some d)) (stored (Some d) r' (key t) v') "query"
           = v).
Proof.
  assert (∀ x, patched_get d (patched_set x this) = x) as Hget.
  { intros x. unfold patched_get, patched_set, hasOwn.
    rewrite lookup_insert_eq. by rewrite bool_decide_true by by eexists. }
  repeat apply conj; try done.
  - unfold hasOwn, patched_set. rewrite lookup_insert_eq.
    by rewrite bool_decide_true by by eexists.
  - exists (stored (Some d) this (key Query) v).
    destruct (read_after_write (Some d) this Query v) as [Hset Hread].
    repeat apply conj; try done.
    intros t v' Hne. apply (holds_get (Some d) _ Query).
    apply holds_frame; [done|]. apply holds_stored.
Qed.

(** X11.  The patch is installed over whatever descriptor is found, also
    over one without a getter: a [query] that was a plain data property of
    [express.request] read as its value before the patch and reads as
    [undefined] after it, until the request is assigned a query, which it
    then reads back. *)
Theorem patch_over_data_property (v0 : value) (r : request) (v : value) :
  r !! "query" = None → r !! "_query" = None →
  prop_get (Some (DataDescriptor v0)) r "query" = v0 ∧
  prop_get (install (Some (DataDescriptor v0))) r "query" = VUndefined ∧
  prop_get (install (Some (DataDescriptor v0)))
           (stored (Some (DataDescriptor v0)) r "query" v) "query" = v.
Proof.
  intros Hown Hshadow. split; [|split].
  - unfold prop_get. by rewrite Hown.
  - unfold prop_get. rewrite Hown. cbn. unfold patched_get, hasOwn.
    rewrite Hshadow. by rewrite bool_decide_false by by intros [? ?].
  - apply (holds_get _ _ Query), (holds_stored _ _ Query).
Qed.

End QueryField.

(** *** The CommonJS build *)

Section CommonJS.

Lemma jv_member_defined (x : jv) (name : string) :
  is_nullish x = false → ∃ y, jv_member x name = Returns y.
Proof.
  destruct x as [| |v|r|[v|g s]|g|s|]; try done; intros _; cbn;
    try (by eexists).
  destruct v; by eexists.
Qed.

(** The loop over optional accesses whose functions are defined on every
    value but [undefined] and [null]. *)
Lemma optional_accesses_loop (fs : list (jv -> completion jv))
    (lastAccessLHS value : jv) :
  (∀ f x, In f fs → is_nullish x = false → ∃ y, f x = Returns y) →
  ∃ y, optionalChain_loop lastAccessLHS value (List.map optionalAccess fs)
       = Returns y.
Proof.
  revert lastAccessLHS value.
  induction fs as [|f fs IH]; intros lastAccessLHS value Hfs; cbn.
  { by eexists. }
  destruct (is_nullish value) eqn:Hvalue; [by eexists|].
  destruct (Hfs f value) as [y ->]; [by left|done|].
  apply IH. intros f' x Hin. apply Hfs. by right.
Qed.

(** X12.  A chain of optional accesses does not fail on [undefined] or
    [null]: if each of its functions is defined on every other value, as a
    property read is, the chain returns a value, whatever it starts
    from. *)
Theorem optional_accesses_never_throw (fs : list (jv -> completion jv))
    (head : jv) :
  (∀ f x, In f fs → is_nullish x = false → ∃ y, f x = Returns y) →
  ∃ y, optionalChain head (List.map optionalAccess fs) = Returns y.
Proof. apply optional_accesses_loop. Qed.

(** X13.  The getter of the CommonJS build, written with [_optionalChain],
    returns what the getter of the ES module build returns, for every
    descriptor and every request, and never throws. *)
Theorem patched_get_cjs_agrees (descriptor : PropertyDescriptor)
    (this : request) :
  patched_get_cjs descriptor this
  = Returns (of_value (patched_get descriptor this)).
Proof.
  unfold patched_get_cjs, patched_get.
  destruct (hasOwn this "_query"); [done|].
  by destruct descriptor as [v|[g|] s].
Qed.

End CommonJS.

(** ** The claims on concrete requests *)

Section Concrete.

Import Examples.

(** C1, witness: with every schema omitted and an empty request nothing
    throws, and the three categories are validated one at a time in the
    order query, params, body. *)
Lemma validation_order_witness :
  let tr := trace (handle express5 no_schemas VUndefined next ∅ []).2 in
  threw tr = false ∧
  attempted tr = [Query; Params; Body] ∧
  completes_before Query Params tr = true ∧
  completes_before Params Body tr = true ∧
  (∃ p, In (Settled Query (Returns p)) tr).
Proof.
  cbn zeta.
  destruct (validation_order_query_params_body
              express5 no_schemas VUndefined next ∅ [])
    as (_ & _ & Hall & _ & Hearlier & _).
  split; [vm_compute; reflexivity|].
  destruct Hall as (Hattempted & Hqp & Hpb); [vm_compute; reflexivity|].
  split; [exact Hattempted|]. split; [exact Hqp|]. split; [exact Hpb|].
  apply (Hearlier Query Body); [vm_compute; tauto|].
  rewrite Hattempted. cbn. tauto.
Defined.

(** C1, counterexample: three validators that record their calls are
    called in the order query, params, body; the attempt-parse of params
    does not settle before that of query is called, it is the other way
    round. *)
Lemma params_not_validated_first :
  let run := handle express5 recording VUndefined next ∅ [] in
  completes_before Params Query (trace run.2) = false ∧
  completes_before Query Params (trace run.2) = true ∧
  attempted (trace run.2) = [Query; Params; Body] ∧
  world run.2 = ["query"; "params"; "body"; "next"].
Proof. vm_compute. repeat split; reflexivity. Qed.

(** C2, counterexample: a validator that returns a failure with an empty
    list of issues does not make the handler raise, [next] is called; and a
    failure returned by one validator followed by a throw of another ends
    with the thrown value, not with a [ZodError]. *)
Lemma failure_without_issues_proceeds :
  (let run := handle express5 silent_failure VUndefined next ∅ [] in
   In (Settled Query (Returns (Failure []))) (trace run.2) ∧
   run.1 = Done VUndefined ∧
   next_calls (trace run.2) = [[]]) ∧
  (let run := handle express5 failing_then_throwing VUndefined next ∅ [] in
   In (Settled Query (Returns (Failure [too_small]))) (trace run.2) ∧
   run.1 = Rejected (Uncaught (Thrown (VStr "boom"))) ∧
   next_calls (trace run.2) = []).
Proof. vm_compute. repeat split; auto. Qed.

(** C2, witness: the three validators fail; the error raised carries the
    issues of the three failures. *)
Lemma aggregated_error_witness :
  let run := handle express5 all_failing VUndefined next ∅ [] in
  run.1 = Rejected (ZodError [too_small; invalid_id; too_big]) ∧
  incl [too_big] (collected (trace run.2)) ∧
  next_calls (trace run.2) = [].
Proof.
  cbn zeta.
  destruct (aggregated_error_iff_issues_collected
              express5 all_failing VUndefined next ∅ [])
    as (Hraised & Hcarried & Hnext).
  split; [|split].
  - apply Hraised. vm_compute. repeat split; discriminate.
  - apply (Hcarried Body). vm_compute. auto 10.
  - rewrite Hnext. vm_compute. reflexivity.
Defined.

(** C3, witness: the normalization of the mixed schema set does not
    throw; its entry that is a validator is taken as it is, its absent
    entry becomes the strict empty object, which refuses a query, and its
    field mapping becomes the strict object over it, which refuses a body
    with an extra field. *)
Lemma validation_normalizes_witness :
  eval_validation mixed = Returns (validation mixed) ∧
  entry (validation mixed) Params = coerce_number ∧
  entry (validation mixed) Query = strictObject (JObject []) ∧
  safeParseAsync (entry (validation mixed) Query)
                 (VObj [("page", VStr "2")]) []
  = (Returns (Failure [unrecognized_keys ["page"]]), []) ∧
  entry (validation mixed) Body = strictObject (JObject [("title", string_max4)]) ∧
  match (safeParseAsync (strictObject (JObject [("title", string_max4)]))
           (VObj [("title", VStr "ok"); ("extra", VStr "x")]) []).1 with
  | Returns (Failure issues) => In (unrecognized_keys ["extra"]) issues
  | _ => False
  end.
Proof.
  destruct (validation_normalizes_schemas mixed Params)
    as (Hevaluated & Hparams & _).
  destruct (validation_normalizes_schemas mixed Query)
    as (_ & _ & _ & Hquery & _).
  destruct (validation_normalizes_schemas mixed Body)
    as (_ & _ & Hbody & _ & _ & Hstrict).
  destruct (Hquery eq_refl) as [Hempty Hrefuses].
  split; [exact Hevaluated|].
  split; [by eapply Hparams|].
  split; [exact Hempty|].
  split; [exact (Hrefuses [("page", VStr "2")] [])|].
  split; [apply Hbody; intros f; discriminate|].
  specialize (Hstrict [("title", string_max4)]
                [("title", VStr "ok"); ("extra", VStr "x")] "extra" []).
  destruct (safeParseAsync _ _ _).1 as [[?|issues]|?] eqn:Hrun;
    try discriminate Hrun.
  apply Hstrict; [cbn; tauto | reflexivity].
Defined.

(** C4, witness: the three validators fail on one request; the query
    field is left alone, params and body are attempted all the same, and
    the error raised carries the three lists of issues. *)
Lemma failure_keeps_field_witness :
  let run := handle express5 all_failing VUndefined next page2 [] in
  In (Settled Query (Returns (Failure [too_small]))) (trace run.2) ∧
  (∀ v, ¬ In (Assigned Query v) (trace run.2)) ∧
  req run.2 !! "_query" = None ∧
  attempted (trace run.2) = [Query; Params; Body] ∧
  run.1 = Rejected (ZodError [too_small; invalid_id; too_big]).
Proof.
  cbn zeta.
  assert (In (Settled Query (Returns (Failure [too_small])))
             (trace (handle express5 all_failing VUndefined next page2 []).2))
    as Hin by (vm_compute; auto).
  destruct (failure_keeps_field_and_continues
              express5 all_failing VUndefined next page2 [] Query [too_small]
              Hin) as (Hkept & _ & Hshadow & _ & Hall).
  destruct Hall as (Hattempted & _ & Hraised); [vm_compute; reflexivity|].
  split; [done|]. split; [done|].
  split; [by rewrite Hshadow|]. split; [done|].
  by rewrite Hraised.
Defined.

(** C5, witness: params are coerced and the title is too long; the
    handler raises the error for the body and the params stay coerced. *)
Lemma successful_fields_witness :
  let run := handle express5 documented VUndefined next long_title [] in
  run.1 = Rejected (ZodError [under "title" too_big]) ∧
  In (Settled Params (Returns (Success (VObj [("id", VNum 42)])))) (trace run.2) ∧
  prop_get (install express5) (req run.2) "params" = VObj [("id", VNum 42)].
Proof.
  cbn zeta.
  assert ((handle express5 documented VUndefined next long_title []).1
          = Rejected (ZodError [under "title" too_big])) as Hraised
    by (vm_compute; reflexivity).
  assert (In (Settled Params (Returns (Success (VObj [("id", VNum 42)]))))
             (trace (handle express5 documented VUndefined next long_title []).2))
    as Hin by (vm_compute; auto 10).
  split; [done|]. split; [done|].
  apply (successful_fields_stay_overwritten
           express5 documented VUndefined next long_title [] Params
           (VObj [("id", VNum 42)]) _ Hraised Hin).
Defined.

(** C6, witness: the body of the request is passed to the body validator
    as it is. *)
Lemma validator_input_witness :
  let run := handle express5 documented VUndefined next long_title [] in
  In (Called Body (VObj [("title", VStr "toolong")])) (trace run.2) ∧
  VObj [("title", VStr "toolong")]
  = nullish (prop_get (install express5) long_title "body") empty_object.
Proof.
  cbn zeta.
  assert (In (Called Body (VObj [("title", VStr "toolong")]))
             (trace (handle express5 documented VUndefined next long_title []).2))
    as Hin by (vm_compute; auto 10).
  split; [done|].
  destruct (validator_input_nullish_default
              express5 documented VUndefined next long_title [] Body _ Hin)
    as (Hinput & _).
  exact Hinput.
Defined.

(** C6, counterexample: the body of the request is [null], which is not
    [undefined]; the body validator is given the empty object and not the
    [null] the field holds, so that the strict empty object accepts it. *)
Lemma null_field_replaced_by_empty_object :
  let run := handle express5 no_schemas VUndefined next null_body [] in
  prop_get (install express5) null_body "body" = VNull ∧
  VNull ≠ VUndefined ∧
  In (Called Body empty_object) (trace run.2) ∧
  ¬ In (Called Body VNull) (trace run.2) ∧
  run.1 = Done VUndefined.
Proof.
  vm_compute. repeat split; auto 10; try discriminate.
  intros H. decompose [or] H; discriminate || contradiction.
Qed.

(** C7, witness: on the request for [/items?page=2] the handler validates
    the query and the request then reads as the validated data; the same
    request before the handler ran, which has no shadow slot, reads as the
    original getter derives it, with or without the patch. *)
Lemma query_accessor_witness :
  let run := handle express5 query_coerced VUndefined next page2 [] in
  prop_get (install express5) (req run.2) "query" = VObj [("page", VNum 2)] ∧
  prop_get (install express5) page2 "query" = VObj [("page", VStr "2")] ∧
  prop_get express5 page2 "query" = VObj [("page", VStr "2")] ∧
  prop_set (install express5) page2 "query" VNull = Returns (patched_set VNull page2).
Proof.
  cbn zeta.
  pose proof (query_accessor_shadow_slot (W := log)
                (AccessorDescriptor (Some express_query) None))
    as (_ & _ & _ & Haccess & Hhandled & Hother).
  split; [|split; [|split]].
  - apply (Hhandled query_coerced VUndefined next page2 []).
    vm_compute. auto.
  - apply (Hother page2 express_query None); reflexivity.
  - apply (Hother page2 express_query None); reflexivity.
  - apply (Haccess page2 VNull). reflexivity.
Defined.

(** C8, witness: the body validator throws; the handler is rejected with
    the value thrown and [next] is not called. *)
Lemma validator_exception_witness :
  let run := handle express5 failing_then_throwing VUndefined next ∅ [] in
  In (Settled Body (Throws (Thrown (VStr "boom")))) (trace run.2) ∧
  run.1 = Rejected (Uncaught (Thrown (VStr "boom"))) ∧
  next_calls (trace run.2) = [].
Proof.
  cbn zeta.
  assert (In (Settled Body (Throws (Thrown (VStr "boom"))))
             (trace (handle express5 failing_then_throwing VUndefined next ∅ []).2))
    as Hin by (vm_compute; auto 10).
  destruct (validator_exception_propagates
              express5 failing_then_throwing VUndefined next ∅ [] Body _ Hin)
    as (Hout & _ & Hnext & _).
  done.
Defined.

(** The validators of the documented schema answer by their input alone. *)
Lemma documented_deterministic (t : DataType) :
  deterministic (safeParseAsync (entry (validation documented) t)).
Proof.
  intros input w w'. destruct t; cbn -[to_number max4].
  - by destruct input.
  - destruct input as [| | | | |fields]; try reflexivity.
    unfold strict_parse. cbn -[to_number]. by destruct (to_number _).
  - destruct input as [| | | | |fields]; try reflexivity.
    unfold strict_parse. cbn -[max4]. by destruct (max4 _).
Qed.

(** C9, witness: the documented schema on the same request, first in a
    fresh world and then in the world the first invocation left. *)
Lemma handler_has_no_hidden_state_witness :
  let run := handle express5 documented VUndefined next long_title [] in
  let run' := handle express5 documented VUndefined next long_title (world run.2) in
  trace run.2 = trace run'.2 ∧ req run.2 = req run'.2.
Proof.
  cbn zeta.
  destruct (handler_has_no_hidden_state
              express5 documented VUndefined VUndefined next next long_title []
              (world (handle express5 documented VUndefined next long_title []).2)
              documented_deterministic) as (Htrace & Hreq & _).
  done.
Defined.

(** C10, witness: [undefined] assigned to the query of the request for
    [/items?page=2] is what the request then reads, not the query the
    original getter derives, also after the params are assigned. *)
Lemma query_setter_witness :
  patched_get (AccessorDescriptor (Some express_query) None)
              (patched_set VUndefined page2) = VUndefined ∧
  express_query (patched_set VUndefined page2) = VObj [("page", VStr "2")] ∧
  ∃ r', prop_set (install express5) page2 "query" VUndefined = Returns r' ∧
        prop_get (install express5) (stored express5 r' "params" (VObj [])) "query"
        = VUndefined.
Proof.
  destruct (query_setter_value_persists
              (AccessorDescriptor (Some express_query) None) page2 VUndefined)
    as (Hget & _ & _ & _ & r' & Hset & _ & Hframe).
  split; [done|]. split; [reflexivity|].
  exists r'. split; [done|].
  apply (Hframe Params (VObj [])). discriminate.
Defined.

(** The scenarios of the specification, run on the model. *)

(** Scenario 1: the params are coerced and the handler proceeds. *)
Example scenario_coercion :
  let run := handle express5 only_params VUndefined next item42 [] in
  run.1 = Done VUndefined ∧
  next_calls (trace run.2) = [[]] ∧
  prop_get (install express5) (req run.2) "params" = VObj [("id", VNum 42)].
Proof. vm_compute. repeat split; reflexivity. Qed.

(** Scenario 2: the long title and the extra field are both reported. *)
Example scenario_strict_body :
  (handle express5 only_body VUndefined next long_title_and_extra []).1
  = Rejected (ZodError [under "title" too_big; unrecognized_keys ["extra"]]).
Proof. vm_compute. reflexivity. Qed.

(** Scenario 3: with every schema omitted, a query is not accepted. *)
Example scenario_unexpected_query :
  (handle express5 no_schemas VUndefined next page2 []).1
  = Rejected (ZodError [unrecognized_keys ["page"]]).
Proof. vm_compute. reflexivity. Qed.

End Concrete.

(** ** The further properties on concrete requests *)

Section ConcreteFurther.

Import Examples.

(** X1, witness: assigning the params of the request for [/items?page=2]
    leaves its [url] and its missing shadow slot as they were. *)
Lemma assignment_changes_only_its_field_witness :
  ∃ r', prop_set (install express5) page2 "params" (VObj []) = Returns r' ∧
        r' !! "url" = Some (VStr "/items?page=2") ∧
        r' !! "_query" = None.
Proof.
  destruct (assignment_changes_only_its_field
              express5 page2 Params (VObj []))
    as (r' & Hset & Hframe & Hshadow & _).
  exists r'. split; [exact Hset|]. split.
  - by rewrite (Hframe "url").
  - by rewrite Hshadow.
Defined.

(** X2, witness: under express 5 the validated query of that request is
    in the shadow slot and no own [query] property appears; with no
    descriptor found, the validated query of an empty request is an own
    property and there is no shadow slot. *)
Lemma validated_query_placement_witness :
  req (handle express5 query_coerced VUndefined next page2 []).2 !! "query"
  = None ∧
  req (handle None no_schemas VUndefined next ∅ []).2 !! "_query" = None.
Proof.
  split.
  - apply (validated_query_placement
             express5 query_coerced VUndefined next page2 []);
      [by eexists | reflexivity].
  - rewrite (proj2 (validated_query_placement
                      None no_schemas VUndefined next ∅ [])); [done|by left].
Defined.

(** X3, witness: the params were assigned the coerced id, which is what
    their validator returned. *)
Lemma assigned_only_validated_data_witness :
  let tr := trace (handle express5 documented VUndefined next long_title []).2 in
  In (Assigned Params (VObj [("id", VNum 42)])) tr ∧
  In (Settled Params (Returns (Success (VObj [("id", VNum 42)])))) tr.
Proof.
  cbn zeta.
  assert (In (Assigned Params (VObj [("id", VNum 42)]))
             (trace (handle express5 documented VUndefined next long_title []).2))
    as Hin by (vm_compute; auto 10).
  split; [done|].
  by apply (assigned_only_validated_data
              express5 documented VUndefined next long_title []).
Defined.

(** X4, witness: three failing validators; the error lists the issue of
    query, then that of params, then that of body. *)
Lemma issues_ordered_witness :
  let tr := trace (handle express5 all_failing VUndefined next ∅ []).2 in
  [too_small; invalid_id; too_big]
  = per_category Query tr ++ per_category Params tr ++ per_category Body tr ∧
  per_category Query tr = [too_small] ∧
  per_category Params tr = [invalid_id] ∧
  per_category Body tr = [too_big].
Proof.
  cbn zeta. split; [|by vm_compute].
  apply (issues_ordered_by_category express5 all_failing VUndefined next ∅ []).
  vm_compute. reflexivity.
Defined.

(** X5, witness: three validators that succeed; [next] is called and the
    params read as the validator's data. *)
Lemma proceeds_only_when_validated_witness :
  let run := handle express5 recording VUndefined next item42 [] in
  next_calls (trace run.2) ≠ [] ∧
  attempted (trace run.2) = [Query; Params; Body] ∧
  collected (trace run.2) = [].
Proof.
  cbn zeta.
  assert (next_calls
            (trace (handle express5 recording VUndefined next item42 []).2)
          ≠ []) as Hcalled by (vm_compute; discriminate).
  split; [done|].
  destruct (proceeds_only_when_validated
              express5 recording VUndefined next item42 [] Hcalled)
    as (Hattempted & _ & Hcollected & _).
  done.
Defined.

(** X6, witness: the handler ends with the call of [next]. *)
Lemma handler_settles_as_next_witness :
  let run := handle express5 recording VUndefined next item42 [] in
  next_calls (trace run.2) ≠ [] ∧
  last (trace run.2) = Some (NextCalled []).
Proof.
  cbn zeta.
  assert (next_calls
            (trace (handle express5 recording VUndefined next item42 []).2)
          ≠ []) as Hcalled by (vm_compute; discriminate).
  split; [done|].
  by destruct (handler_settles_as_next
                 express5 recording VUndefined next item42 [] Hcalled).
Defined.

(** X7, witness: the value the handler is rejected with was thrown by the
    validator of the body. *)
Lemma handler_throws_nothing_else_witness :
  let run := handle express5 failing_then_throwing VUndefined next ∅ [] in
  run.1 = Rejected (Uncaught (Thrown (VStr "boom"))) ∧
  In (Settled Body (Throws (Thrown (VStr "boom")))) (trace run.2) ∧
  next_calls (trace run.2) = [].
Proof.
  cbn zeta.
  assert ((handle express5 failing_then_throwing VUndefined next ∅ []).1
          = Rejected (Uncaught (Thrown (VStr "boom")))) as Hout
    by (vm_compute; reflexivity).
  split; [done|].
  destruct (handler_throws_nothing_else
              express5 failing_then_throwing VUndefined next ∅ [] _ Hout)
    as [(t & f & input & w0 & _ & _ & Hin) | [Hnext _]].
  - split; [|by vm_compute]. vm_compute. auto 10.
  - vm_compute in Hnext. discriminate Hnext.
Defined.

(** X9, witness: the same schema twice on the request for [/items/42];
    the second validator of the params is given the number the first one
    coerced the id to. *)
Lemma second_handler_witness :
  let first := handle express5 only_params VUndefined next item42 [] in
  let second := handle express5 only_params VUndefined next (req first.2) [] in
  In (Settled Params (Returns (Success (VObj [("id", VNum 42)])))) (trace first.2) ∧
  In (Called Params (VObj [("id", VNum 42)])) (trace second.2) ∧
  VObj [("id", VNum 42)] = nullish (VObj [("id", VNum 42)]) empty_object.
Proof.
  cbn zeta.
  assert (In (Settled Params (Returns (Success (VObj [("id", VNum 42)]))))
             (trace (handle express5 only_params VUndefined next item42 []).2))
    as Hfirst by (vm_compute; auto 10).
  assert (In (Called Params (VObj [("id", VNum 42)]))
             (trace (handle express5 only_params VUndefined next
                       (req (handle express5 only_params VUndefined next
                               item42 []).2) []).2))
    as Hsecond by (vm_compute; auto 10).
  split; [done|]. split; [done|].
  apply (second_handler_reads_validated_data
           express5 only_params only_params VUndefined VUndefined next next
           item42 [] [] Params _ _ Hfirst Hsecond).
Defined.

(** X11, witness: a [query] data property holding the empty object, on an
    empty request. *)
Lemma patch_over_data_property_witness :
  prop_get (Some (DataDescriptor (VObj []))) ∅ "query" = VObj [] ∧
  prop_get (install (Some (DataDescriptor (VObj [])))) ∅ "query" = VUndefined.
Proof.
  destruct (patch_over_data_property (VObj []) ∅ VNull) as (Hbefore & Hafter & _);
    [reflexivity | reflexivity |].
  done.
Defined.

(** X12, witness: [undefined?.get?.call] is a value, while the plain
    access [undefined.get] throws. *)
Lemma optional_accesses_witness :
  (∃ y, optionalChain JvUndefined
          [optionalAccess (fun x => jv_member x "get");
           optionalAccess (fun x => jv_member x "call")] = Returns y) ∧
  optionalChain JvUndefined [access (fun x => jv_member x "get")]
  = Throws (TypeError "Cannot read properties of undefined or null").
Proof.
  split; [|reflexivity].
  apply (optional_accesses_never_throw
           [fun x => jv_member x "get"; fun x => jv_member x "call"]).
  intros f x [<-|[<-|[]]] Hx; by apply jv_member_defined.
Defined.

End ConcreteFurther.
